(** * ICHI classification service: query handlers and code repair

    A shallow embedding of the ICHI part of the AMS server:

    - [fixMissingCodes.js] (function [fixCodes]): the batch repair that
      rewrites flat codes from a title/prefix heuristic;
    - the two versions of the Express handlers [GET /ichi/search] and
      [GET /ichi]: the one of [server.js] (module [ServerJs]) and the
      refactored one (module [Refactored], the file that opens with
      "Refactored AMS server with HTTPS and proper ICHI/FHIR mapping").

    Strings are sequences of character codes ([string] of the Standard
    Library); the model covers the Latin-1 range, where a JavaScript code
    unit, a character and a code point are the same thing.  The SQLite
    operators the statements use (LIKE ... ESCAPE, REPLACE, LTRIM, ORDER BY,
    LIMIT, OFFSET, UPDATE ... WHERE) are modelled after SQLite's documented
    behaviour, next to the statement that uses them. *)

From Stdlib Require Import String Ascii List ZArith Lia Bool Permutation.
From Stdlib Require Import Sorted.
Import ListNotations.

Local Open Scope string_scope.
Local Open Scope bool_scope.

(** ** JavaScript string primitives *)

Module Js.

(** [s.startsWith(p)] *)
Fixpoint startsWith (s p : string) {struct p} : bool :=
  match p, s with
  | EmptyString, _ => true
  | String _ _, EmptyString => false
  | String a p', String b s' => Ascii.eqb a b && startsWith s' p'
  end.

(** [s.includes(sub)]: [sub] occurs at some position of [s]. *)
Fixpoint includes (s sub : string) : bool :=
  startsWith s sub ||
  match s with
  | EmptyString => false
  | String _ s' => includes s' sub
  end.

(** [s.split('.')]: the pieces between the dots; never the empty array. *)
Fixpoint split_dot (s : string) : list string :=
  match s with
  | EmptyString => [EmptyString]
  | String c s' =>
      if Ascii.eqb c "." then EmptyString :: split_dot s'
      else match split_dot s' with
           | h :: t => String c h :: t
           | [] => [String c EmptyString]
           end
  end.

(** [a.slice(0, 2)] *)
Definition slice_0_2 {A} (a : list A) : list A := firstn 2 a.

(** [a.join('.')] *)
Definition join_dot (a : list string) : string := String.concat "." a.

Definition is_upper (c : ascii) : bool :=
  let n := nat_of_ascii c in (65 <=? n)%nat && (n <=? 90)%nat.

Definition is_digit (c : ascii) : bool :=
  let n := nat_of_ascii c in (48 <=? n)%nat && (n <=? 57)%nat.

Fixpoint all_chars (f : ascii -> bool) (s : string) : bool :=
  match s with
  | EmptyString => true
  | String c s' => f c && all_chars f s'
  end.

(** The tail of [/^[A-Z]+\d*$/] once one uppercase letter has been read:
    more uppercase letters, then digits only, up to the end of the string. *)
Fixpoint flat_tail (s : string) : bool :=
  match s with
  | EmptyString => true
  | String c s' => if is_upper c then flat_tail s' else all_chars is_digit s
  end.

(** [/^[A-Z]+\d*$/.test(s)] *)
Definition test_flat (s : string) : bool :=
  match s with
  | EmptyString => false
  | String c s' => is_upper c && flat_tail s'
  end.

(** White space of [String.prototype.trim] and of [parseInt]: TAB, LF, VT,
    FF, CR, SPACE and NBSP (the white space and line terminators below 256). *)
Definition is_space (c : ascii) : bool :=
  let n := nat_of_ascii c in
  ((9 <=? n)%nat && (n <=? 13)%nat) || (n =? 32)%nat || (n =? 160)%nat.

Fixpoint trimStart (s : string) : string :=
  match s with
  | EmptyString => EmptyString
  | String c s' => if is_space c then trimStart s' else s
  end.

(** [trimEnd] keeps a character when it is not white space or when
    something other than white space follows it. *)
Fixpoint trimEnd (s : string) : string :=
  match s with
  | EmptyString => EmptyString
  | String c s' =>
      match trimEnd s' with
      | EmptyString => if is_space c then EmptyString else String c EmptyString
      | t => String c t
      end
  end.

(** [s.trim()] *)
Definition trim (s : string) : string := trimEnd (trimStart s).

(** [s.replace(/c/g, r)] for a one-character pattern [c]. *)
Fixpoint replace_all (c : ascii) (r : string) (s : string) : string :=
  match s with
  | EmptyString => EmptyString
  | String d s' =>
      if Ascii.eqb d c then r ++ replace_all c r s'
      else String d (replace_all c r s')
  end.

(** A JavaScript Number as far as the handlers produce one: an integer or
    NaN.  Integers are kept exact (a double is, up to 2^53). *)
Inductive number : Type :=
| NaN : number
| Num : Z -> number.

Fixpoint digits_value (acc : Z) (s : string) : Z :=
  match s with
  | EmptyString => acc
  | String c s' =>
      if is_digit c
      then digits_value (10 * acc + Z.of_nat (nat_of_ascii c - 48)) s'
      else acc
  end.

Definition starts_with_digit (s : string) : bool :=
  match s with
  | EmptyString => false
  | String c _ => is_digit c
  end.

Definition parse_digits (s : string) : number :=
  if starts_with_digit s then Num (digits_value 0 s) else NaN.

Definition negate (n : number) : number :=
  match n with
  | NaN => NaN
  | Num z => Num (- z)
  end.

(** [parseInt(s, 10)]: leading white space, an optional sign, then the
    longest run of decimal digits; NaN when there is no digit. *)
Definition parseInt (s : string) : number :=
  match trimStart s with
  | String "-" r => negate (parse_digits r)
  | String "+" r => parse_digits r
  | r => parse_digits r
  end.

(** [Math.min(x, 1000)] and [Math.max(x, 0)]: NaN is contagious. *)
Definition Math_min (x : number) (k : Z) : number :=
  match x with
  | NaN => NaN
  | Num z => Num (Z.min z k)
  end.

Definition Math_max (x : number) (k : Z) : number :=
  match x with
  | NaN => NaN
  | Num z => Num (Z.max z k)
  end.

End Js.

(** ** The repair of [fixMissingCodes.js] *)

Module Repair.

(** A row of [SELECT id, code, title FROM ICHI]. *)
Record ichi_row : Type := mkRow { id : Z; code : string; title : string }.

(** The callback of [rows.find]: [r] is a parent for [row]. *)
Definition is_parent (row r : ichi_row) : bool :=
  Js.includes (title r) (title row) &&
  Js.startsWith (code r) (code row) &&
  negb (String.eqb (code r) (code row)).

(** [rows.find(r => ...)]: the first row of the array that qualifies. *)
Definition find_parent (rows : list ichi_row) (row : ichi_row) : option ichi_row :=
  find (is_parent row) rows.

(** [parent.code.split('.').slice(0, 2).join('.')] *)
Definition first_two_segments (c : string) : string :=
  Js.join_dot (Js.slice_0_2 (Js.split_dot c)).

(** What one iteration of [rows.forEach] decides for [row]: the corrected
    code, when [row] is a candidate with a parent. *)
Definition correctedCode (rows : list ichi_row) (row : ichi_row) : option string :=
  if Js.test_flat (code row) then
    match find_parent rows row with
    | Some parent => Some (first_two_segments (code parent))
    | None => None
    end
  else None.

(** [UPDATE ICHI SET code = ? WHERE id = ?] on a table without constraint
    on [code] (none is declared in the repository): every row with that id
    gets the new code. *)
Definition db_update (tbl : list ichi_row) (new_code : string) (i : Z) : list ichi_row :=
  map (fun r => if Z.eqb (id r) i then mkRow (id r) new_code (title r) else r) tbl.

(** The body of the [forEach] callback, on the table as it stands; [rows] is
    the array read once by [db.all] and never changed. *)
Definition fix_row (rows : list ichi_row) (tbl : list ichi_row) (row : ichi_row) : list ichi_row :=
  match correctedCode rows row with
  | Some c => db_update tbl c (id row)
  | None => tbl
  end.

(** The [UPDATE] statements [fixCodes] issues, in order: (id, new code). *)
Definition updates (rows : list ichi_row) : list (Z * string) :=
  flat_map (fun row => match correctedCode rows row with
                       | Some c => [(id row, c)]
                       | None => []
                       end) rows.

(** [fixCodes()]: read all rows, then visit each of them in order.  The
    read and the writes are taken to succeed (a failure is only logged). *)
Definition fixCodes (tbl : list ichi_row) : list ichi_row :=
  fold_left (fix_row tbl) tbl tbl.


End Repair.

(** ** The SQLite operators the handlers' statements use *)

Module Sqlite.

(** A row of the ICHI table.  [DepthInKind] is the number the column holds;
    the comparison [DepthInKind = '1'] of the refactored search holds exactly
    for the rows whose depth is 1. *)
Record entry : Type := mkEntry {
  Code : string;
  BlockId : string;
  Title : string;
  ClassKind : string;
  DepthInKind : Z
}.

Definition to_lower (c : ascii) : ascii :=
  if Js.is_upper c then ascii_of_nat (nat_of_ascii c + 32) else c.

(** LIKE compares two characters without regard to the case of ASCII
    letters (the default; no handler sets [case_sensitive_like]). *)
Definition char_eq_nocase (a b : ascii) : bool :=
  Ascii.eqb a b ||
  (Ascii.eqb (to_lower a) (to_lower b) &&
   (nat_of_ascii a <? 128)%nat && (nat_of_ascii b <? 128)%nat).

(** [s LIKE p ESCAPE '\']: [%] matches any run of characters, [_] any one
    character, the escape character makes the character after it an ordinary
    one, and a pattern that ends in the escape character matches nothing. *)
Fixpoint like (p : string) : string -> bool :=
  match p with
  | EmptyString =>
      fun s => match s with EmptyString => true | String _ _ => false end
  | String c p' =>
      if Ascii.eqb c "%" then
        fix any (s : string) : bool :=
          like p' s ||
          match s with EmptyString => false | String _ s' => any s' end
      else if Ascii.eqb c "_" then
        fun s => match s with
                 | EmptyString => false
                 | String _ s' => like p' s'
                 end
      else if Ascii.eqb c "\" then
        match p' with
        | EmptyString => fun _ => false
        | String e p'' =>
            fun s => match s with
                     | EmptyString => false
                     | String d s' => char_eq_nocase e d && like p'' s'
                     end
        end
      else
        fun s => match s with
                 | EmptyString => false
                 | String d s' => char_eq_nocase c d && like p' s'
                 end
  end.

(** [REPLACE(x, y, '')] for a one-character [y]: every occurrence goes. *)
Fixpoint replace_with_empty (x : string) (y : ascii) : string :=
  match x with
  | EmptyString => EmptyString
  | String c x' =>
      if Ascii.eqb c y then replace_with_empty x' y
      else String c (replace_with_empty x' y)
  end.

(** [LTRIM(x, y)] for a one-character [y]: the leading [y]s go. *)
Fixpoint ltrim (x : string) (y : ascii) : string :=
  match x with
  | EmptyString => EmptyString
  | String c x' => if Ascii.eqb c y then ltrim x' y else x
  end.

(** [ORDER BY] a text column, ascending, in the BINARY collation.  The order
    of rows with equal keys is not fixed by SQL; the model keeps them in
    table order. *)
Section OrderBy.
Context {A : Type} (key : A -> string).

Fixpoint insert_by (x : A) (l : list A) : list A :=
  match l with
  | [] => [x]
  | y :: l' =>
      if String.leb (key x) (key y) then x :: l else y :: insert_by x l'
  end.

Fixpoint order_by (l : list A) : list A :=
  match l with
  | [] => []
  | x :: l' => insert_by x (order_by l')
  end.

End OrderBy.

(** [LIMIT n]: the first [n] rows; a negative [n] means no limit. *)
Definition limit_rows {A} (n : Z) (l : list A) : list A :=
  if (n <? 0)%Z then l else firstn (Z.to_nat n) l.

(** [OFFSET m]: skip [m] rows; a negative [m] counts as 0. *)
Definition offset_rows {A} (m : Z) (l : list A) : list A :=
  skipn (Z.to_nat m) l.

(** What reaches a [?] of LIMIT or OFFSET when a JavaScript number is bound:
    NaN is bound as NULL, and a value that is not a 64-bit integer stays a
    REAL; LIMIT and OFFSET refuse both with SQLITE_MISMATCH. *)
Definition bind_integer (n : Js.number) : option Z :=
  match n with
  | Js.NaN => None
  | Js.Num z =>
      if ((- 2 ^ 63 <=? z) && (z <? 2 ^ 63))%Z then Some z else None
  end.

End Sqlite.

(** ** Requests and responses *)

(** A row of [SELECT Code, Title]. *)
Module Hit.
Record t : Type := mk { Title : string; Code : string }.
End Hit.

Module Http.

(** A value of [req.query]: absent ([undefined]), a string, or an array or
    object (a repeated or bracketed parameter), kept as the string it is
    coerced to.  Arrays and objects are truthy and have no [trim]. *)
Inductive param : Type :=
| Absent : param
| Str : string -> param
| NonStr : string -> param.

Record query : Type := mkQuery {
  q : param;
  limit : param;
  offset : param;
  sort : param
}.

(** [p || d] for a string [d] *)
Definition or_else (p : param) (d : string) : param :=
  match p with
  | Absent => Str d
  | Str EmptyString => Str d
  | _ => p
  end.

(** The string [parseInt] reads its first argument as. *)
Definition to_string (p : param) : string :=
  match p with
  | Absent => "undefined"
  | Str s => s
  | NonStr s => s
  end.

(** What the handlers' [catch] can receive. *)
Inductive cause : Type :=
| Trim_is_not_a_function : cause
| Datatype_mismatch : cause.

(** The JSON bodies; [L] is the type of a row of the list endpoint. *)
Inductive body (L : Type) : Type :=
| Error (error : string) (details : option cause)
| Search (query : string) (count : nat) (results : list Hit.t)
| Listing (count : nat) (limit offset : Js.number) (results : list L).
Arguments Error {L}.
Arguments Search {L}.
Arguments Listing {L}.

Record response (L : Type) : Type := mkResponse {
  status : Z;
  json : body L
}.
Arguments mkResponse {L}.
Arguments status {L}.
Arguments json {L}.

(** A call of [dbAll], with the parameters bound to its [?]s. *)
Inductive db_call : Type :=
| Search_query (term : string) (limit : Js.number)
| List_query (order_column : string) (limit offset : Js.number).

(** [`%${q.replace(/%/g, '\\%').replace(/_/g, '\\_')}%`] *)
Definition like_term (q : string) : string :=
  "%" ++ Js.replace_all "_" "\_" (Js.replace_all "%" "\%" q) ++ "%".

(** [Math.min(parseInt(req.query.limit || '100', 10), 1000)] *)
Definition effective_limit (p : param) : Js.number :=
  Js.Math_min (Js.parseInt (to_string (or_else p "100"))) 1000.

(** [Math.max(parseInt(req.query.offset || '0', 10), 0)] *)
Definition effective_offset (p : param) : Js.number :=
  Js.Math_max (Js.parseInt (to_string (or_else p "0"))) 0.

(** [(req.query.sort === 'Title') ? 'Title' : 'Code'] *)
Definition sortColumn (p : param) : string :=
  match p with
  | Str s => if String.eqb s "Title" then "Title" else "Code"
  | _ => "Code"
  end.

(** The column a name spliced after [ORDER BY] denotes. *)
Definition order_key (column : string) : option (Sqlite.entry -> string) :=
  if String.eqb column "Code" then Some Sqlite.Code
  else if String.eqb column "Title" then Some Sqlite.Title
  else if String.eqb column "BlockId" then Some Sqlite.BlockId
  else if String.eqb column "ClassKind" then Some Sqlite.ClassKind
  else None.

(** [... ORDER BY ${column} LIMIT ? OFFSET ?] before the projection. *)
Definition select_list (tbl : list Sqlite.entry) (column : string)
    (limit offset : Js.number) : option (list Sqlite.entry) :=
  match order_key column, Sqlite.bind_integer limit, Sqlite.bind_integer offset with
  | Some key, Some n, Some m =>
      Some (Sqlite.limit_rows n (Sqlite.offset_rows m (Sqlite.order_by key tbl)))
  | _, _, _ => None
  end.

(** The search handler, given the statement it runs: both versions have the
    same text around their SQL. *)
Definition search_with
    (select : list Sqlite.entry -> string -> Js.number -> option (list Hit.t))
    {L : Type} (tbl : list Sqlite.entry) (req : query)
    : response L * list db_call :=
  match or_else (q req) "" with
  | Str s =>
      let q := Js.trim s in
      if String.eqb q "" then
        (mkResponse 400 (Error "Missing query parameter q" None), [])
      else
        let term := like_term q in
        let limit := effective_limit (limit req) in
        match select tbl term limit with
        | Some rows =>
            (mkResponse 200 (Search q (List.length rows) rows),
             [Search_query term limit])
        | None =>
            (mkResponse 500 (Error "Search failed" (Some Datatype_mismatch)),
             [Search_query term limit])
        end
  | _ =>
      (mkResponse 500 (Error "Search failed" (Some Trim_is_not_a_function)), [])
  end.

End Http.

(** ** The handlers of [server.js] *)

Module ServerJs.
Import Http.

Definition project (e : Sqlite.entry) : Hit.t :=
  Hit.mk (Sqlite.Title e) (Sqlite.Code e).

(** [SELECT Code, Title FROM ICHI WHERE Title LIKE ? ESCAPE '\'
     ORDER BY Code LIMIT ?] *)
Definition select_search (tbl : list Sqlite.entry) (term : string)
    (limit : Js.number) : option (list Hit.t) :=
  match Sqlite.bind_integer limit with
  | Some n =>
      Some (map project
              (Sqlite.limit_rows n
                 (Sqlite.order_by Sqlite.Code
                    (filter (fun e => Sqlite.like term (Sqlite.Title e)) tbl))))
  | None => None
  end.

(** [app.get('/ichi/search', ...)] *)
Definition get_ichi_search (tbl : list Sqlite.entry) (req : query)
    : response Hit.t * list db_call :=
  search_with select_search tbl req.

(** [app.get('/ichi', ...)] *)
Definition get_ichi (tbl : list Sqlite.entry) (req : query)
    : response Hit.t * list db_call :=
  let limit := effective_limit (limit req) in
  let offset := effective_offset (offset req) in
  let sort := sortColumn (sort req) in
  match select_list tbl sort limit offset with
  | Some rows =>
      let rows := map project rows in
      (mkResponse 200 (Listing (List.length rows) limit offset rows),
       [List_query sort limit offset])
  | None =>
      (mkResponse 500 (Error "Failed to query AHCI database" None),
       [List_query sort limit offset])
  end.

End ServerJs.

(** ** The refactored handlers *)

Module Refactored.
Import Http.

(** [LTRIM(REPLACE(Title, '-', ''), ' ')] *)
Definition clean_title (title : string) : string :=
  Sqlite.ltrim (Sqlite.replace_with_empty title "-") " ".

Definition project (e : Sqlite.entry) : Hit.t :=
  Hit.mk (clean_title (Sqlite.Title e)) (Sqlite.Code e).

(** The WHERE clause; [Title] there is the stored column, not the alias of
    the result column. *)
Definition where_clause (term : string) (e : Sqlite.entry) : bool :=
  Z.eqb (Sqlite.DepthInKind e) 1 && Sqlite.like term (Sqlite.Title e).

(** [SELECT LTRIM(REPLACE(Title, '-', ''), ' ') AS Title, Code FROM ICHI
     WHERE DepthInKind = '1' AND Title LIKE ? ESCAPE '\'
     ORDER BY Code LIMIT ?] *)
Definition select_search (tbl : list Sqlite.entry) (term : string)
    (limit : Js.number) : option (list Hit.t) :=
  match Sqlite.bind_integer limit with
  | Some n =>
      Some (map project
              (Sqlite.limit_rows n
                 (Sqlite.order_by Sqlite.Code (filter (where_clause term) tbl))))
  | None => None
  end.

(** [app.get('/ichi/search', ...)] *)
Definition get_ichi_search (tbl : list Sqlite.entry) (req : query)
    : response Sqlite.entry * list db_call :=
  search_with select_search tbl req.

(** [app.get('/ichi', ...)] *)
Definition get_ichi (tbl : list Sqlite.entry) (req : query)
    : response Sqlite.entry * list db_call :=
  let limit := effective_limit (limit req) in
  let offset := effective_offset (offset req) in
  let sortColumn := sortColumn (sort req) in
  match select_list tbl sortColumn limit offset with
  | Some rows =>
      (mkResponse 200 (Listing (List.length rows) limit offset rows),
       [List_query sortColumn limit offset])
  | None =>
      (mkResponse 500
         (Error "Failed to query ICHI database" (Some Datatype_mismatch)),
       [List_query sortColumn limit offset])
  end.

End Refactored.

(** The padding the specification describes: the dashes and spaces a stored
    title starts with.  This definition follows the specification's words. *)
Fixpoint spec_strip_padding (title : string) : string :=
  match title with
  | EmptyString => EmptyString
  | String c t =>
      if Ascii.eqb c "-" || Ascii.eqb c " " then spec_strip_padding t else title
  end.

(** ** The lookup of one code *)

Module Lookup.

(** What [GET /ichi/:code] answers: the row ([res.json(row)], status 200)
    or an error with its status.  [R] is the type of the row. *)
Inductive reply (R : Type) : Type :=
| Row (row : R)
| Failure (status : Z) (error : string).
Arguments Row {R}.
Arguments Failure {R}.

Definition status {R} (r : reply R) : Z :=
  match r with
  | Row _ => 200
  | Failure st _ => st
  end.

(** [... WHERE Code = ? LIMIT 1]: the first row whose code is the parameter,
    compared exactly (BINARY collation). *)
Definition select_code (tbl : list Sqlite.entry) (code : string)
    : option Sqlite.entry :=
  find (fun e => String.eqb (Sqlite.Code e) code) tbl.

(** [app.get('/ichi/:code', ...)] of [server.js]; the second component is
    the list of the parameters bound by the calls of [dbGet]. *)
Definition server_js (tbl : list Sqlite.entry) (code : string)
    : reply Hit.t * list string :=
  match select_code tbl code with
  | Some row => (Row (ServerJs.project row), [code])
  | None => (Failure 404 "Code not found", [code])
  end.

(** [app.get('/ichi/:code', ...)] of the refactored server:
    [(req.params.code || '').trim()], then the same statement with all the
    columns. *)
Definition refactored (tbl : list Sqlite.entry) (param : string)
    : reply Sqlite.entry * list string :=
  let code := Js.trim param in
  if String.eqb code "" then (Failure 400 "Missing code parameter", [])
  else
    match select_code tbl code with
    | Some row => (Row row, [code])
    | None => (Failure 404 "Code not found", [code])
    end.

End Lookup.

(** The rows of a response of the list endpoint (none in an error). *)
Definition listed {L} (r : Http.response L) : list L :=
  match Http.json r with
  | Http.Listing _ _ _ rows => rows
  | _ => []
  end.

(** The rows of a response of the search endpoint (none in an error). *)
Definition hits {L} (r : Http.response L) : list Hit.t :=
  match Http.json r with
  | Http.Search _ _ rows => rows
  | _ => []
  end.

(** ** More of JavaScript: values, [split], [parseInt] without radix *)

Module JsValue.

(** A value of a request body as the conversion to FHIR uses it: absent
    ([undefined]), a string, or anything else (a number, a boolean, [null],
    an array, an object), kept as its truth value and the string it is
    coerced to. *)
Inductive value : Type :=
| Undefined : value
| Text : string -> value
| Other : bool -> string -> value.

(** The truth value [if (v)] and [v || d] test. *)
Definition truthy (v : value) : bool :=
  match v with
  | Undefined => false
  | Text EmptyString => false
  | Text _ => true
  | Other b _ => b
  end.

(** [`${v}`], and the string [parseInt] and a property access read. *)
Definition to_string (v : value) : string :=
  match v with
  | Undefined => "undefined"
  | Text s => s
  | Other _ s => s
  end.

(** [v || d] *)
Definition or_else (v d : value) : value := if truthy v then v else d.

(** [s.split(sep)] for a one-character separator. *)
Fixpoint split (sep : ascii) (s : string) : list string :=
  match s with
  | EmptyString => [EmptyString]
  | String c s' =>
      if Ascii.eqb c sep then EmptyString :: split sep s'
      else match split sep s' with
           | h :: t => String c h :: t
           | [] => [String c EmptyString]
           end
  end.

Definition hex_digit (c : ascii) : option Z :=
  let n := nat_of_ascii c in
  if Js.is_digit c then Some (Z.of_nat (n - 48))
  else if ((97 <=? n) && (n <=? 102))%nat then Some (Z.of_nat (n - 87))
  else if ((65 <=? n) && (n <=? 70))%nat then Some (Z.of_nat (n - 55))
  else None.

Fixpoint hex_value (acc : Z) (s : string) : Z :=
  match s with
  | EmptyString => acc
  | String c s' =>
      match hex_digit c with
      | Some d => hex_value (16 * acc + d) s'
      | None => acc
      end
  end.

Definition parse_hex (s : string) : Js.number :=
  match s with
  | EmptyString => Js.NaN
  | String c _ =>
      match hex_digit c with
      | Some _ => Js.Num (hex_value 0 s)
      | None => Js.NaN
      end
  end.

(** The digits after the sign: hexadecimal after [0x] or [0X], decimal
    otherwise. *)
Definition parse_unsigned (s : string) : Js.number :=
  match s with
  | String "0" (String "x" r) => parse_hex r
  | String "0" (String "X" r) => parse_hex r
  | _ => Js.parse_digits s
  end.

(** [parseInt(s)], no radix given. *)
Definition parseInt_auto (s : string) : Js.number :=
  match Js.trimStart s with
  | String "-" r => Js.negate (parse_unsigned r)
  | String "+" r => parse_unsigned r
  | r => parse_unsigned r
  end.

(** [n || 30] for a number: NaN and 0 are falsy. *)
Definition or_30 (n : Js.number) : Js.number :=
  match n with
  | Js.NaN => Js.Num 30
  | Js.Num z => if Z.eqb z 0 then Js.Num 30 else n
  end.

End JsValue.

(** ** [fhir-builder.js]: the Patient resource *)

Module FHIRBuilder.

Module Identifier.
Record t : Type := mk { system : string; value : string }.
End Identifier.

Module HumanName.
(** [given] holds what [name.split(' ')[0]] evaluates to: an element of the
    array, or [undefined] ([None]) if there were none. *)
Record t : Type := mk {
  use : string;
  text : string;
  given : list (option string);
  family : string
}.
End HumanName.

Module ContactPoint.
Record t : Type := mk { system : string; value : string; use : string }.
End ContactPoint.

Module Address.
Record t : Type := mk {
  use : string;
  text : string;
  city : string;
  state : string;
  country : string
}.
End Address.

(** The argument of [createPatient]; its properties are taken to be
    strings. *)
Record patient_data : Type := mkData {
  id : string;
  name : string;
  gender : string;
  birthDate : string;
  phone : string;
  address : string
}.

Record patient : Type := mkPatient {
  p_resourceType : string;
  p_id : string;
  p_identifier : list Identifier.t;
  p_name : list HumanName.t;
  p_gender : string;
  p_birthDate : string;
  p_telecom : list ContactPoint.t;
  p_address : list Address.t
}.

(** [FHIRBuilder.createPatient({id, name, gender, birthDate, phone,
    address})] *)
Definition createPatient (d : patient_data) : patient :=
  mkPatient
    "Patient"
    (id d)
    [Identifier.mk "http://hospital.example.org/patient" (id d)]
    [HumanName.mk "official" (name d)
       [hd_error (JsValue.split " " (name d))]
       (String.concat " " (tl (JsValue.split " " (name d))))]
    (gender d)
    (birthDate d)
    [ContactPoint.mk "phone" (phone d) "mobile"]
    [Address.mk "home" (address d) "Yangon" "Yangon Region" "MM"].

End FHIRBuilder.

(** ** The conversion of a booking to a FHIR Appointment *)

Module Ehr.
Import JsValue.

(** The body of [POST /book-appointment]. *)
Record ehrData : Type := mkEhr {
  patientId : value;
  patientName : value;
  doctorId : value;
  doctorName : value;
  diagnosis : value;
  procedureCode : value;
  duration : value;
  startDateTime : value;
  endDateTime : value;
  priority : value;
  status : value;
  notes : value
}.

(** What the conversion reads from outside: the clock, the random source,
    and the Date object.  [date_iso v] is [new Date(v).toISOString()], which
    throws a RangeError ([None]) for what is not a date. *)
Record environment : Type := mkEnv {
  now : string;
  random_suffix : string;
  created_iso : string;
  date_iso : value -> option string
}.

(** What [statusMap[key] || 'booked'] can be: a string, or the member of
    [Object.prototype] the key names (a function or an object, truthy). *)
Inductive status_value : Type :=
| Status : string -> status_value
| Inherited : string -> status_value.

(** The names every object literal inherits from [Object.prototype]. *)
Definition object_prototype_names : list string :=
  ["constructor"; "__defineGetter__"; "__defineSetter__"; "hasOwnProperty";
   "__lookupGetter__"; "__lookupSetter__"; "isPrototypeOf";
   "propertyIsEnumerable"; "toString"; "valueOf"; "__proto__";
   "toLocaleString"].

(** [statusMap], the own properties. *)
Definition statusMap : list (string * string) :=
  [("scheduled", "booked"); ("confirmed", "booked"); ("arrived", "arrived");
   ("completed", "fulfilled"); ("cancelled", "cancelled");
   ("noshow", "noshow"); ("pending", "pending")].

Fixpoint own_property (m : list (string * string)) (key : string) : option string :=
  match m with
  | [] => None
  | (k, v) :: m' => if String.eqb k key then Some v else own_property m' key
  end.

(** [statusMap[ehrData.status] || 'booked'] *)
Definition fhirStatus (st : value) : status_value :=
  let key := to_string st in
  match own_property statusMap key with
  | Some v => Status v
  | None =>
      if existsb (String.eqb key) object_prototype_names then Inherited key
      else Status "booked"
  end.

Module Actor.
Record t : Type := mk { reference : string; display : value }.
End Actor.

Module Participant.
Record t : Type := mk { actor : Actor.t; status : string; required : string }.
End Participant.

Module Coding.
Record t : Type := mk { system : string; code : value; display : value }.
End Coding.

Module Reason.
(** [coding] is absent ([None]) unless a procedure code was given. *)
Record t : Type := mk { text : value; coding : option (list Coding.t) }.
End Reason.

Record appointment : Type := mkAppointment {
  a_resourceType : string;
  a_id : string;
  a_status : status_value;
  a_serviceType : list string; (* the [text] of each element *)
  a_start : string;
  a_end : string;
  a_minutesDuration : Js.number;
  a_created : string;
  a_comment : value;
  a_participant : list Participant.t;
  a_reasonCode : option (list Reason.t);
  a_priority : option Js.number
}.

(** The two participants, patient then practitioner. *)
Definition participants (e : ehrData) : list Participant.t :=
  [Participant.mk
     (Actor.mk ("Patient/" ++ to_string (patientId e)) (patientName e))
     "accepted" "required";
   Participant.mk
     (Actor.mk ("Practitioner/" ++ to_string (doctorId e)) (doctorName e))
     "accepted" "required"].

(** The object literal both versions start from, given how each reads the
    duration; [None] when one of the two dates throws. *)
Definition base_appointment (env : environment) (e : ehrData)
    (minutes : Js.number) : option appointment :=
  match date_iso env (startDateTime e), date_iso env (endDateTime e) with
  | Some start, Some end_ =>
      Some (mkAppointment
              "Appointment"
              ("appt-" ++ now env ++ "-" ++ random_suffix env)
              (fhirStatus (status e))
              ["Medical Consultation"]
              start end_
              minutes
              (created_iso env)
              (or_else (notes e) (Text ""))
              (participants e)
              None None)
  | _, _ => None
  end.

Definition with_reason (r : option (list Reason.t)) (a : appointment) : appointment :=
  mkAppointment (a_resourceType a) (a_id a) (a_status a) (a_serviceType a)
    (a_start a) (a_end a) (a_minutesDuration a) (a_created a) (a_comment a)
    (a_participant a) r (a_priority a).

Definition with_priority (p : option Js.number) (a : appointment) : appointment :=
  mkAppointment (a_resourceType a) (a_id a) (a_status a) (a_serviceType a)
    (a_start a) (a_end a) (a_minutesDuration a) (a_created a) (a_comment a)
    (a_participant a) (a_reasonCode a) p.

(** [convertEHRtoFHIR] of [server.js] (and of the server without ICHI
    routes, which has the same text): [parseInt] without radix, the reason
    from the diagnosis alone. *)
Definition convertEHRtoFHIR_server_js (env : environment) (e : ehrData)
    : option appointment :=
  match base_appointment env e
          (or_30 (parseInt_auto (to_string (duration e)))) with
  | Some a =>
      let a := if truthy (diagnosis e)
               then with_reason (Some [Reason.mk (diagnosis e) None]) a
               else a in
      let a := if truthy (priority e)
               then with_priority
                      (Some (parseInt_auto (to_string (priority e)))) a
               else a in
      Some a
  | None => None
  end.

(** [convertEHRtoFHIR] of the refactored server: [parseInt(_, 10)], and the
    ICHI procedure code as a coding of the reason. *)
Definition convertEHRtoFHIR_refactored (env : environment) (e : ehrData)
    : option appointment :=
  match base_appointment env e
          (or_30 (Js.parseInt (to_string (duration e)))) with
  | Some a =>
      let a :=
        if truthy (diagnosis e) || truthy (procedureCode e) then
          let text := or_else (diagnosis e) (Text "") in
          let coding :=
            if truthy (procedureCode e)
            then Some [Coding.mk "https://icd.who.int/devct11/ichi/en/current"
                         (procedureCode e) (or_else (diagnosis e) (Text ""))]
            else None in
          with_reason (Some [Reason.mk text coding]) a
        else a in
      let a := if truthy (priority e)
               then with_priority (Some (Js.parseInt (to_string (priority e)))) a
               else a in
      Some a
  | None => None
  end.

End Ehr.

(** ** [POST /fhir/Appointment]: the names of the participants *)

Module FhirAppointment.
Import JsValue.

(** An element of [appointment.participant] as the handler reads it:
    [null] or [undefined] (reading [p.actor] throws), something without a
    truthy [actor], or an actor with its [reference] and [display]. *)
Inductive participant : Type :=
| Nullish : participant
| NoActor : participant
| Actor (reference display : value) : participant.

(** [appointment.participant]: falsy, an array, or a truthy value that is
    not an array (it has no [forEach]). *)
Inductive participant_field : Type :=
| Missing : participant_field
| NotAnArray : participant_field
| Array : list participant -> participant_field.

(** The callback of [forEach], on [(patientName, doctorName)]; [None] is a
    TypeError: a [null] participant, or a truthy [reference] that is not a
    string and has no [startsWith]. *)
Definition visit (names : value * value) (p : participant)
    : option (value * value) :=
  match p with
  | Nullish => None
  | NoActor => Some names
  | Actor reference display =>
      if truthy display then
        if truthy reference then
          match reference with
          | Text r =>
              if Js.startsWith r "Patient/" then Some (display, snd names)
              else if Js.startsWith r "Practitioner/" then Some (fst names, display)
              else Some names
          | _ => None
          end
        else Some names
      else Some names
  end.

Fixpoint forEach (l : list participant) (names : value * value)
    : option (value * value) :=
  match l with
  | [] => Some names
  | p :: l' =>
      match visit names p with
      | Some names' => forEach l' names'
      | None => None
      end
  end.

(** "Extract participant names": the pair the handler stores, or [None]
    when the handler ends in its [catch] (status 500). *)
Definition participant_names (f : participant_field) : option (value * value) :=
  match f with
  | Missing => Some (Text "", Text "")
  | NotAnArray => None
  | Array l => forEach l (Text "", Text "")
  end.

(** A participant built by [convertEHRtoFHIR], as the callback of
    [forEach] reads such an object. *)
Definition received (p : Ehr.Participant.t) : participant :=
  Actor (Text (Ehr.Actor.reference (Ehr.Participant.actor p)))
        (Ehr.Actor.display (Ehr.Participant.actor p)).

End FhirAppointment.

(** ** Notions the properties are stated with *)


(** The conditions of the parent search, in words: the title of [p] contains
    the title of [cand], the code of [p] starts with the code of [cand], and
    the two codes differ. *)
Definition qualifies (cand p : Repair.ichi_row) : Prop :=
  (exists a b, Repair.title p = a ++ Repair.title cand ++ b) /\
  (exists t, Repair.code p = Repair.code cand ++ t) /\
  Repair.code p <> Repair.code cand.



(** The row a repair run leaves in the place of [r] when ids identify rows. *)
Definition repaired (rows : list Repair.ichi_row) (r : Repair.ichi_row)
    : Repair.ichi_row :=
  match Repair.correctedCode rows r with
  | Some c => Repair.mkRow (Repair.id r) c (Repair.title r)
  | None => r
  end.

(** Substring search that ignores the case of ASCII letters, as LIKE
    compares characters: [p] is at the start of [s], [sub] is somewhere in
    [s]. *)
Fixpoint startsWith_nocase (s p : string) {struct p} : bool :=
  match p, s with
  | EmptyString, _ => true
  | String _ _, EmptyString => false
  | String a p', String b s' => Sqlite.char_eq_nocase a b && startsWith_nocase s' p'
  end.

Fixpoint includes_nocase (s sub : string) : bool :=
  startsWith_nocase s sub ||
  match s with
  | EmptyString => false
  | String _ s' => includes_nocase s' sub
  end.

(** A term in which the escape character of the LIKE does not occur. *)
Definition no_backslash (q : string) : bool :=
  Js.all_chars (fun c => negb (Ascii.eqb c "\")) q.

(** A title with a hyphen: the character ['-'] occurs in it. *)
Fixpoint has_hyphen (s : string) : bool :=
  match s with
  | EmptyString => false
  | String c s' => Ascii.eqb c "-" || has_hyphen s'
  end.

(** [q.replace(/%/g, '\\%').replace(/_/g, '\\_')], the term between the two
    wildcards of [like_term]. *)
Definition escape (q : string) : string :=
  Js.replace_all "_" "\_" (Js.replace_all "%" "\%" q).

(** Two terms with the same characters up to the case of ASCII letters. *)
Fixpoint same_letters (a b : string) : bool :=
  match a, b with
  | EmptyString, EmptyString => true
  | String c a', String d b' => Sqlite.char_eq_nocase c d && same_letters a' b'
  | _, _ => false
  end.

(** Rows in ascending order of a text column: each row's key is at most the
    next row's. *)
Definition ascending {A} (key : A -> string) (l : list A) : Prop :=
  Sorted (fun a b => String.leb (key a) (key b) = true) l.

(** A character occurs in a string. *)
Fixpoint contains_char (c : ascii) (s : string) : bool :=
  match s with
  | EmptyString => false
  | String d s' => Ascii.eqb d c || contains_char c s'
  end.

(** The characters of a code before its first dot, and before its second
    dot (the first dot included). *)
Fixpoint upto_dot (s : string) : string :=
  match s with
  | EmptyString => EmptyString
  | String c s' => if Ascii.eqb c "." then EmptyString else String c (upto_dot s')
  end.

Fixpoint upto_second_dot (s : string) : string :=
  match s with
  | EmptyString => EmptyString
  | String c s' =>
      if Ascii.eqb c "." then String c (upto_dot s')
      else String c (upto_second_dot s')
  end.

(** The digits after the sign start with [0x] or [0X]. *)
Definition hex_prefix (r : string) : bool :=
  match r with
  | String "0" (String "x" _) => true
  | String "0" (String "X" _) => true
  | _ => false
  end.

(** A number written in hexadecimal, as [parseInt] without radix reads it. *)
Definition hex_prefixed (s : string) : bool :=
  match Js.trimStart s with
  | String "-" r => hex_prefix r
  | String "+" r => hex_prefix r
  | r => hex_prefix r
  end.

(** The values of the FHIR appointment status that [statusMap] can give. *)
Definition mapped_statuses : list string :=
  ["booked"; "arrived"; "fulfilled"; "cancelled"; "noshow"; "pending"].

(** A participant on which the name extraction throws: [null], or a truthy
    display beside a truthy reference that is not a string. *)
Definition throws (p : FhirAppointment.participant) : bool :=
  match p with
  | FhirAppointment.Nullish => true
  | FhirAppointment.NoActor => false
  | FhirAppointment.Actor reference display =>
      JsValue.truthy display &&
      match reference with
      | JsValue.Other true _ => true
      | _ => false
      end
  end.

(** A participant with a truthy display whose reference starts with the
    given prefix. *)
Definition refers_to (prefix : string) (p : FhirAppointment.participant) : bool :=
  match p with
  | FhirAppointment.Actor (JsValue.Text r) display =>
      JsValue.truthy display && Js.startsWith r prefix
  | _ => false
  end.

(** The display of the last participant of the list that refers to the
    prefix, or the empty string when there is none. *)
Definition last_display (prefix : string) (l : list FhirAppointment.participant)
    : JsValue.value :=
  match find (refers_to prefix) (rev l) with
  | Some (FhirAppointment.Actor _ display) => display
  | _ => JsValue.Text ""
  end.

(** A booking like the example of the README, and an environment in which
    every date is read as the same instant. *)
Definition readme_booking : Ehr.ehrData :=
  Ehr.mkEhr (JsValue.Text "P001") (JsValue.Text "Maung Thurein Lin")
    (JsValue.Text "DOC001") (JsValue.Text "Dr. Aung Ko Win")
    (JsValue.Text "Percutaneous drainage of appendix")
    (JsValue.Text "KBO.JB.AE") (JsValue.Text "45")
    (JsValue.Text "2025-12-08T10:07") (JsValue.Text "2025-12-08T10:52")
    (JsValue.Text "2") (JsValue.Text "scheduled")
    (JsValue.Text "RLQ pain, fever, nausea...").

Definition fixed_environment : Ehr.environment :=
  Ehr.mkEnv "1765166820000" "k3j9x2m1q" "2025-12-08T04:07:00.000Z"
    (fun _ => Some "2025-12-08T03:37:00.000Z").

(** A stored title with every ['-'] left out, said with the list of its
    characters; and a run of [k] spaces. *)
Definition without_hyphens (title : string) : string :=
  string_of_list_ascii
    (filter (fun c => negb (Ascii.eqb c "-")) (list_ascii_of_string title)).

Fixpoint spaces (k : nat) : string :=
  match k with
  | O => EmptyString
  | S k' => String " " (spaces k')
  end.

(** * Properties *)

(** ** What the string primitives decide *)

Section StringFacts.

Lemma startsWith_iff (s p : string) :
  Js.startsWith s p = true <-> exists t, s = p ++ t.
Proof.
  revert s; induction p as [|a p IH]; intros s; simpl.
  - split; [intros _; now exists s | reflexivity].
  - destruct s as [|b s].
    + split; [discriminate | intros [t Ht]; discriminate].
    + rewrite andb_true_iff, Ascii.eqb_eq, IH. split.
      * intros [-> [t ->]]. now exists t.
      * intros [t Ht]. injection Ht as -> ->. split; [reflexivity | now exists t].
Qed.

Lemma includes_iff (s sub : string) :
  Js.includes s sub = true <-> exists a b, s = a ++ sub ++ b.
Proof.
  induction s as [|c s IH].
  - simpl. rewrite orb_false_r, startsWith_iff. split.
    + intros [t Ht]. now exists EmptyString, t.
    + intros [a [b H]]. destruct a; [now exists b | discriminate].
  - change (Js.includes (String c s) sub)
      with (Js.startsWith (String c s) sub || Js.includes s sub).
    rewrite orb_true_iff, startsWith_iff, IH. split.
    + intros [[t Ht] | [a [b H]]].
      * now exists EmptyString, t.
      * exists (String c a), b. simpl. now rewrite H.
    + intros [a [b H]]. destruct a as [|d a].
      * left. now exists b.
      * right. simpl in H. injection H as _ H. now exists a, b.
Qed.




End StringFacts.

(** ** The repair *)

Section RepairFacts.
Import Repair.
Local Open Scope list_scope.

Lemma is_parent_iff (cand p : ichi_row) :
  is_parent cand p = true <-> qualifies cand p.
Proof.
  unfold is_parent, qualifies.
  rewrite !andb_true_iff, includes_iff, startsWith_iff, negb_true_iff.
  rewrite <- not_true_iff_false, String.eqb_eq. tauto.
Qed.

Lemma id_repaired rows r : id (repaired rows r) = id r.
Proof. unfold repaired. now destruct (correctedCode rows r). Qed.

Lemma db_update_other tbl c i :
  (forall r, In r tbl -> id r <> i) -> db_update tbl c i = tbl.
Proof.
  intros H. unfold db_update. rewrite <- (map_id tbl) at 2.
  apply map_ext_in. intros r Hr.
  destruct (Z.eqb_spec (id r) i) as [E|_]; [now elim (H r Hr) | reflexivity].
Qed.

Lemma db_update_app t1 t2 c i :
  db_update (t1 ++ t2) c i = db_update t1 c i ++ db_update t2 c i.
Proof. apply map_app. Qed.

(** One pass of the loop: the rows already visited are repaired, the others
    are as they were read. *)
Lemma fold_fix_row rows visited rest :
  NoDup (map id (visited ++ rest)) ->
  fold_left (fix_row rows) rest (map (repaired rows) visited ++ rest)
  = map (repaired rows) (visited ++ rest).
Proof.
  revert visited. induction rest as [|x rest IH]; intros visited Hnd.
  - simpl. now rewrite !app_nil_r.
  - simpl fold_left.
    assert (Hx : fix_row rows (map (repaired rows) visited ++ x :: rest) x
                 = map (repaired rows) (visited ++ [x]) ++ rest).
    { rewrite map_app. simpl map. rewrite <- app_assoc. simpl app.
      rewrite map_app in Hnd. simpl in Hnd.
      pose proof (NoDup_remove_2 _ _ _ Hnd) as Hnot.
      unfold fix_row.
      destruct (correctedCode rows x) as [c|] eqn:Hc.
      2: { replace (repaired rows x) with x; [reflexivity|].
           unfold repaired. now rewrite Hc. }
      replace (repaired rows x) with (mkRow (id x) c (title x))
        by (unfold repaired; now rewrite Hc).
      rewrite db_update_app. f_equal.
      - apply db_update_other. intros r Hr E. apply Hnot.
        apply in_map_iff in Hr as [r0 [<- Hr0]]. rewrite id_repaired in E.
        apply in_or_app. left. apply in_map_iff. now exists r0.
      - simpl. rewrite Z.eqb_refl. f_equal.
        apply db_update_other. intros r Hr E. apply Hnot.
        apply in_or_app. right. apply in_map_iff. now exists r. }
    rewrite Hx.
    replace (visited ++ x :: rest) with ((visited ++ [x]) ++ rest)
      by (rewrite <- app_assoc; reflexivity).
    apply IH. rewrite <- app_assoc. exact Hnd.
Qed.

(** With ids that identify the rows, a run replaces every row by its
    repaired version. *)
Lemma fixCodes_map tbl :
  NoDup (map id tbl) -> fixCodes tbl = map (repaired tbl) tbl.
Proof. intros H. exact (fold_fix_row tbl [] tbl H). Qed.

Lemma fold_fix_row_updates rows l t :
  fold_left (fix_row rows) l t
  = fold_left (fun t u => db_update t (snd u) (fst u))
      (flat_map (fun row => match correctedCode rows row with
                            | Some c => [(id row, c)]
                            | None => []
                            end) l) t.
Proof.
  revert t. induction l as [|x l IH]; intros t; [reflexivity|].
  simpl. rewrite fold_left_app, <- IH. f_equal.
  unfold fix_row. now destruct (correctedCode rows x).
Qed.

(** A run is the statements of [updates], applied in order. *)
Lemma fixCodes_updates tbl :
  fixCodes tbl
  = fold_left (fun t u => db_update t (snd u) (fst u)) (updates tbl) tbl.
Proof. apply fold_fix_row_updates. Qed.




Lemma map_injective_on {A B} (f : A -> B) l x y :
  NoDup (map f l) -> In x l -> In y l -> f x = f y -> x = y.
Proof.
  induction l as [|a l IH]; intros Hnd Hx Hy E; [easy|].
  inversion Hnd as [|? ? Ha Hnd']; subst.
  destruct Hx as [->|Hx], Hy as [->|Hy]; try reflexivity.
  - elim Ha. rewrite E. now apply in_map.
  - elim Ha. rewrite <- E. now apply in_map.
  - now apply IH.
Qed.

End RepairFacts.

Section RepairTheorems.
Import Repair.
Local Open Scope list_scope.







(** C3, as stated, fails: the corrected code is the parent's own code when
    that code has at most two dot-segments, and nothing checks for it. *)
Lemma repair_can_duplicate_a_code :
  let tbl := [mkRow 1 "HFA" "Drainage"; mkRow 2 "HFA.BA" "Drainage of abscess"] in
  NoDup (map id tbl) /\ NoDup (map code tbl) /\
  updates tbl = [(1%Z, "HFA.BA")] /\
  map code (fixCodes tbl) = ["HFA.BA"; "HFA.BA"] /\
  ~ NoDup (map code (fixCodes tbl)).
Proof.
  cbv zeta. repeat split.
  - repeat constructor; simpl; intuition discriminate.
  - repeat constructor; simpl; intuition discriminate.
  - intros H. inversion H as [|? ? Hnot _]; subst. apply Hnot. now left.
Qed.

(** C3, amended.  In a table whose ids and codes are unique, a run leaves
    the codes unique when no corrected code is a code of the table before
    the run and no two candidates get the same corrected code. *)
Theorem repair_keeps_codes_unique_without_collision :
  forall tbl,
    NoDup (map id tbl) -> NoDup (map code tbl) ->
    (forall c k, In c tbl -> correctedCode tbl c = Some k -> ~ In k (map code tbl)) ->
    (forall c1 c2 k, In c1 tbl -> In c2 tbl ->
                     correctedCode tbl c1 = Some k ->
                     correctedCode tbl c2 = Some k -> c1 = c2) ->
    NoDup (map code (fixCodes tbl)).
Proof.
  intros tbl Hid Hcode Hfresh Hinj.
  rewrite (fixCodes_map _ Hid), map_map.
  apply NoDup_map_NoDup_ForallPairs; [|exact (NoDup_map_inv _ _ Hid)].
  intros x y Hx Hy. unfold repaired.
  destruct (correctedCode tbl x) as [kx|] eqn:Ex,
           (correctedCode tbl y) as [ky|] eqn:Ey; simpl; intros E.
  - subst ky. exact (Hinj x y kx Hx Hy Ex Ey).
  - elim (Hfresh x kx Hx Ex). rewrite E. now apply in_map.
  - elim (Hfresh y ky Hy Ey). rewrite <- E. now apply in_map.
  - exact (map_injective_on code tbl x y Hcode Hx Hy E).
Qed.

Lemma repair_keeps_codes_unique_without_collision_witness :
  NoDup (map code (fixCodes [mkRow 1 "HFA" "Drainage";
                             mkRow 2 "HFA.BA.01" "Drainage of abscess"])).
Proof.
  apply repair_keeps_codes_unique_without_collision.
  - repeat constructor; simpl; intuition discriminate.
  - repeat constructor; simpl; intuition discriminate.
  - intros c k [<-|[<-|[]]] E; vm_compute in E; try discriminate.
    injection E as <-. simpl. intuition discriminate.
  - intros c1 c2 k [<-|[<-|[]]] [<-|[<-|[]]] E1 E2;
      vm_compute in E1, E2; try discriminate; reflexivity.
Defined.

End RepairTheorems.

(** ** The LIKE pattern of the search *)

Section LikeFacts.
Import Sqlite.

Lemma like_percent p s :
  like (String "%" p) s
  = like p s || match s with
                | EmptyString => false
                | String _ s' => like (String "%" p) s'
                end.
Proof. destruct s; reflexivity. Qed.

Lemma like_escaped e p s :
  like (String "\" (String e p)) s
  = match s with
    | EmptyString => false
    | String d s' => char_eq_nocase e d && like p s'
    end.
Proof. reflexivity. Qed.

Lemma like_plain c p s :
  Ascii.eqb c "%" = false -> Ascii.eqb c "_" = false -> Ascii.eqb c "\" = false ->
  like (String c p) s
  = match s with
    | EmptyString => false
    | String d s' => char_eq_nocase c d && like p s'
    end.
Proof. intros H1 H2 H3. simpl. now rewrite H1, H2, H3. Qed.

Lemma like_only_percent s : like "%" s = true.
Proof.
  induction s as [|c s IH]; [reflexivity|].
  rewrite like_percent. simpl (like "" _). exact IH.
Qed.

Lemma escape_cons c q :
  escape (String c q)
  = if Ascii.eqb c "%" then String "\" (String "%" (escape q))
    else if Ascii.eqb c "_" then String "\" (String "_" (escape q))
    else String c (escape q).
Proof.
  unfold escape. simpl.
  destruct (Ascii.eqb_spec c "%") as [->|H1]; [reflexivity|].
  simpl. now destruct (Ascii.eqb c "_").
Qed.

Lemma like_term_escape q : Http.like_term q = String "%" (escape q ++ "%").
Proof. reflexivity. Qed.

(** An escaped term without backslash consumes exactly a copy of the term,
    up to the case of letters. *)
Lemma like_escape_prefix q rest :
  no_backslash q = true ->
  forall s,
    like (escape q ++ rest) s = true <->
    exists m t, s = m ++ t /\ String.length m = String.length q /\
                startsWith_nocase m q = true /\ like rest t = true.
Proof.
  induction q as [|c q IH]; intros Hq s.
  - simpl. split.
    + intros H. exists EmptyString, s. auto.
    + intros [m [t [-> [Hl [_ H]]]]]. destruct m; [exact H | discriminate].
  - simpl in Hq. apply andb_true_iff in Hq as [Hc Hq].
    apply negb_true_iff in Hc.
    assert (Hstep : like (escape (String c q) ++ rest) s
                    = match s with
                      | EmptyString => false
                      | String d s' => char_eq_nocase c d && like (escape q ++ rest) s'
                      end).
    { rewrite escape_cons.
      destruct (Ascii.eqb_spec c "%") as [->|H1]; [apply like_escaped|].
      destruct (Ascii.eqb_spec c "_") as [->|H2]; [apply like_escaped|].
      simpl append. apply like_plain; [| |exact Hc].
      - now apply Ascii.eqb_neq.
      - now apply Ascii.eqb_neq. }
    rewrite Hstep. destruct s as [|d s].
    + split; [discriminate|].
      intros [m [t [E [Hl _]]]]. destruct m; discriminate.
    + rewrite andb_true_iff, (IH Hq). split.
      * intros [Hcd [m [t [-> [Hl [Hm Ht]]]]]].
        exists (String d m), t. simpl. rewrite Hcd, Hm, Hl. auto.
      * intros [m [t [E [Hl [Hm Ht]]]]]. destruct m as [|d' m]; [discriminate|].
        simpl in E, Hl, Hm. injection E as -> ->.
        apply andb_true_iff in Hm as [Hcd Hm]. split; [exact Hcd|].
        exists m, t. auto.
Qed.

Lemma startsWith_nocase_iff s p :
  startsWith_nocase s p = true <->
  exists m t, s = m ++ t /\ String.length m = String.length p /\
              startsWith_nocase m p = true.
Proof.
  revert s; induction p as [|a p IH]; intros s; simpl.
  - split; [intros _; now exists EmptyString, s | reflexivity].
  - destruct s as [|b s].
    + split; [discriminate|]. intros [m [t [E [Hl _]]]]. destruct m; discriminate.
    + rewrite andb_true_iff, IH. split.
      * intros [Hab [m [t [-> [Hl Hm]]]]]. exists (String b m), t.
        simpl. rewrite Hab, Hm, Hl. auto.
      * intros [m [t [E [Hl Hm]]]]. destruct m as [|b' m]; [discriminate|].
        simpl in E, Hl, Hm. injection E as -> ->.
        apply andb_true_iff in Hm as [Hab Hm]. split; [exact Hab|].
        exists m, t. auto.
Qed.

(** The pattern the handlers build matches a title exactly when the title
    contains the term, letters compared without case. *)
Lemma like_term_includes q title :
  no_backslash q = true ->
  like (Http.like_term q) title = includes_nocase title q.
Proof.
  intros Hq. rewrite like_term_escape.
  assert (Hhere : forall s, like (escape q ++ "%") s = startsWith_nocase s q).
  { intros s. apply eq_true_iff_eq.
    rewrite (like_escape_prefix q "%" Hq), startsWith_nocase_iff. split.
    - intros [m [t [E [Hl [Hm _]]]]]. now exists m, t.
    - intros [m [t [E [Hl Hm]]]]. exists m, t.
      repeat split; try assumption. apply like_only_percent. }
  induction title as [|c title IH].
  - rewrite like_percent, Hhere. reflexivity.
  - rewrite like_percent, Hhere, IH. reflexivity.
Qed.

End LikeFacts.

(** ** The rows a statement returns *)

Section SelectFacts.
Import Sqlite.
Local Open Scope list_scope.

Lemma in_insert_by {A} (key : A -> string) x l y :
  In y (insert_by key x l) <-> y = x \/ In y l.
Proof.
  induction l as [|z l IH]; simpl.
  - intuition.
  - destruct (String.leb (key x) (key z)); simpl; rewrite ?IH; intuition.
Qed.

Lemma in_order_by {A} (key : A -> string) l y :
  In y (order_by key l) <-> In y l.
Proof.
  induction l as [|x l IH]; simpl; [tauto|].
  rewrite in_insert_by, IH. intuition.
Qed.

Lemma in_firstn {A} n (l : list A) y : In y (firstn n l) -> In y l.
Proof.
  revert l; induction n as [|n IH]; intros [|x l]; simpl; try tauto.
  intros [->|H]; auto.
Qed.

Lemma in_limit_rows {A} n (l : list A) y : In y (limit_rows n l) -> In y l.
Proof.
  unfold limit_rows. destruct (n <? 0)%Z; [tauto | apply in_firstn].
Qed.

(** Every row of the refactored search comes from a stored row that passes
    the WHERE clause. *)
Lemma refactored_select_search_in tbl term limit rows h :
  Refactored.select_search tbl term limit = Some rows -> In h rows ->
  exists e, In e tbl /\ Refactored.where_clause term e = true /\
            h = Refactored.project e.
Proof.
  unfold Refactored.select_search.
  destruct (bind_integer limit) as [n|]; [|discriminate].
  intros E Hin. injection E as <-.
  apply in_map_iff in Hin as [e [<- He]].
  apply in_limit_rows, in_order_by, filter_In in He as [He Hw].
  now exists e.
Qed.

Lemma or_else_str s : Http.or_else (Http.Str s) "" = Http.Str s.
Proof. now destruct s. Qed.

(** A 200 from the refactored search carries the rows of its statement. *)
Lemma refactored_search_200 tbl req qy n rows :
  fst (Refactored.get_ichi_search tbl req)
  = Http.mkResponse 200 (Http.Search qy n rows) ->
  Refactored.select_search tbl (Http.like_term qy)
    (Http.effective_limit (Http.limit req)) = Some rows.
Proof.
  unfold Refactored.get_ichi_search, Http.search_with.
  destruct (Http.or_else (Http.q req) "") as [|s|s]; simpl; try discriminate.
  destruct (String.eqb (Js.trim s) ""); simpl; [discriminate|].
  destruct (Refactored.select_search tbl (Http.like_term (Js.trim s))
              (Http.effective_limit (Http.limit req))) as [r|] eqn:Hsel;
    simpl; [|discriminate].
  intros E. injection E as <- _ <-. exact Hsel.
Qed.

End SelectFacts.

(** ** Cleaning a title *)

Section TitleFacts.
Import Sqlite.

Lemma replace_with_empty_no_hyphen t :
  has_hyphen (replace_with_empty t "-") = false.
Proof.
  induction t as [|c t IH]; simpl; [reflexivity|].
  destruct (Ascii.eqb c "-") eqn:E; [exact IH|]. simpl. now rewrite E.
Qed.

Lemma ltrim_no_hyphen t y : has_hyphen t = false -> has_hyphen (ltrim t y) = false.
Proof.
  induction t as [|c t IH]; simpl; [reflexivity|].
  intros H. apply orb_false_iff in H as [Hc Ht].
  destruct (Ascii.eqb c y); [now apply IH|]. simpl. now rewrite Hc, Ht.
Qed.

Lemma clean_title_no_hyphen t : has_hyphen (Refactored.clean_title t) = false.
Proof. apply ltrim_no_hyphen, replace_with_empty_no_hyphen. Qed.

Lemma ltrim_head t y c r : ltrim t y = String c r -> Ascii.eqb c y = false.
Proof.
  induction t as [|d t IH]; simpl; [discriminate|].
  destruct (Ascii.eqb d y) eqn:E; [exact IH|].
  intros H. injection H as <- _. exact E.
Qed.

(** A cleaned title starts with neither a dash nor a space. *)
Lemma clean_title_no_padding t :
  spec_strip_padding (Refactored.clean_title t) = Refactored.clean_title t.
Proof.
  pose proof (clean_title_no_hyphen t) as Hh.
  unfold Refactored.clean_title in *.
  destruct (ltrim (replace_with_empty t "-") " ") as [|c r] eqn:E; [reflexivity|].
  apply ltrim_head in E. simpl in Hh. apply orb_false_iff in Hh as [Hc _].
  simpl. now rewrite Hc, E.
Qed.

End TitleFacts.

(** ** The search handlers: depth and titles *)

Section SearchResults.
Import Sqlite Http.
Local Open Scope list_scope.
Local Open Scope Z_scope.

(** Every hit of the refactored search comes from a stored row of depth 1,
    with its title cleaned. *)
Lemma refactored_search_hits_have_depth_1 tbl req qy n rows h :
  fst (Refactored.get_ichi_search tbl req) = mkResponse 200 (Search qy n rows) ->
  In h rows ->
  exists e, In e tbl /\ DepthInKind e = 1 /\
            Hit.Code h = Code e /\
            Hit.Title h = Refactored.clean_title (Title e).
Proof.
  intros H Hin. apply refactored_search_200 in H.
  destruct (refactored_select_search_in _ _ _ _ _ H Hin) as [e [He [Hw ->]]].
  exists e. unfold Refactored.where_clause in Hw.
  apply andb_true_iff in Hw as [Hd _]. apply Z.eqb_eq in Hd. auto.
Qed.

(** C4. The search of [server.js] has no condition on [DepthInKind]: asked
    for "append", it returns a matching row of depth 2, which the refactored
    search leaves out. *)
Theorem server_js_search_returns_depth_2 :
  let tbl := [mkEntry "KBO" "Block" "Removal of appendix" "Category" 2] in
  let req := mkQuery (Str "append") Absent Absent Absent in
  fst (ServerJs.get_ichi_search tbl req)
  = mkResponse 200 (Search "append" 1 [Hit.mk "Removal of appendix" "KBO"]) /\
  fst (Refactored.get_ichi_search tbl req)
  = mkResponse 200 (Search "append" 0 []).
Proof. split; reflexivity. Qed.

(** No title of the refactored search starts with a dash or a space. *)
Lemma refactored_search_titles_have_no_padding tbl req qy n rows h :
  fst (Refactored.get_ichi_search tbl req) = mkResponse 200 (Search qy n rows) ->
  In h rows ->
  spec_strip_padding (Hit.Title h) = Hit.Title h /\
  has_hyphen (Hit.Title h) = false.
Proof.
  intros H Hin.
  destruct (refactored_search_hits_have_depth_1 _ _ _ _ _ _ H Hin)
    as [e [_ [_ [_ ->]]]].
  split; [apply clean_title_no_padding | apply clean_title_no_hyphen].
Qed.

(** C8. The search of [server.js] selects the stored [Title] as it is: the
    padding of "- - Removal of appendix" is in the response, where the
    refactored search returns the title without it. *)
Theorem server_js_search_returns_padded_title :
  let tbl := [mkEntry "KBO.JB.AE" "Block" "- - Removal of appendix" "Category" 1] in
  let req := mkQuery (Str "append") Absent Absent Absent in
  fst (ServerJs.get_ichi_search tbl req)
  = mkResponse 200
      (Search "append" 1 [Hit.mk "- - Removal of appendix" "KBO.JB.AE"]) /\
  fst (Refactored.get_ichi_search tbl req)
  = mkResponse 200 (Search "append" 1 [Hit.mk "Removal of appendix" "KBO.JB.AE"]).
Proof. split; reflexivity. Qed.

Lemma replace_with_empty_without_hyphens t :
  replace_with_empty t "-" = without_hyphens t.
Proof.
  unfold without_hyphens. induction t as [|c t IH]; [reflexivity|].
  simpl. destruct (Ascii.eqb c "-"); simpl; now rewrite IH.
Qed.

Lemma ltrim_spaces x : exists k, x = (spaces k ++ ltrim x " ")%string.
Proof.
  induction x as [|c x [k IH]]; [now exists 0%nat|].
  simpl. destruct (Ascii.eqb_spec c " ") as [->|_].
  - exists (S k). simpl. now rewrite <- IH.
  - now exists 0%nat.
Qed.

(** C10. The title of a hit of the refactored search is the stored title
    with every ['-'] removed, wherever it is, and then the leading spaces,
    and nothing else, removed: the stored title without its hyphens is some
    spaces followed by the returned title, which does not start with a
    space; so the returned title has no hyphen at all, and when the stored
    title has a hyphen after its padding the returned title is not the
    stored title without its padding. *)
Theorem search_title_loses_every_hyphen :
  forall tbl req qy n rows h,
    fst (Refactored.get_ichi_search tbl req) = mkResponse 200 (Search qy n rows) ->
    In h rows ->
    exists e,
      In e tbl /\ Hit.Code h = Code e /\
      Hit.Title h = ltrim (replace_with_empty (Title e) "-") " " /\
      (exists k, without_hyphens (Title e) = (spaces k ++ Hit.Title h)%string) /\
      (forall r, Hit.Title h <> String " " r) /\
      has_hyphen (Hit.Title h) = false /\
      (has_hyphen (spec_strip_padding (Title e)) = true ->
       Hit.Title h <> spec_strip_padding (Title e)).
Proof.
  intros tbl req qy n rows h H Hin.
  destruct (refactored_search_hits_have_depth_1 _ _ _ _ _ _ H Hin)
    as [e [He [_ [Hc Ht]]]].
  exists e. split; [exact He|]. split; [exact Hc|]. split; [exact Ht|].
  assert (Hno : has_hyphen (Hit.Title h) = false)
    by (rewrite Ht; apply clean_title_no_hyphen).
  split; [|split; [|split; [exact Hno|]]].
  - rewrite Ht. unfold Refactored.clean_title.
    rewrite <- replace_with_empty_without_hyphens. apply ltrim_spaces.
  - intros r E. rewrite Ht in E. unfold Refactored.clean_title in E.
    apply ltrim_head in E. discriminate E.
  - intros Hhy E. rewrite E, Hhy in Hno. discriminate.
Qed.

Lemma search_title_loses_every_hyphen_witness :
  "Noninvasive test" <> spec_strip_padding "- - Non-invasive test".
Proof.
  destruct (search_title_loses_every_hyphen
              [mkEntry "PZX.AA.ZZ" "Block" "- - Non-invasive test" "Category" 1]
              (mkQuery (Str "invasive") Absent Absent Absent)
              "invasive" 1%nat [Hit.mk "Noninvasive test" "PZX.AA.ZZ"]
              (Hit.mk "Noninvasive test" "PZX.AA.ZZ")
              eq_refl (or_introl eq_refl))
    as [e [He [_ [_ [_ [_ [_ Hne]]]]]]].
  destruct He as [<-|[]]. apply Hne. reflexivity.
Defined.

End SearchResults.

(** ** The search handlers: the term *)

Section SearchTerm.
Import Sqlite Http.
Local Open Scope list_scope.
Local Open Scope Z_scope.

Lemma trimStart_empty_iff s :
  Js.trimStart s = "" <-> Js.all_chars Js.is_space s = true.
Proof.
  induction s as [|c s IH]; simpl; [tauto|].
  destruct (Js.is_space c); simpl; [exact IH|]. split; discriminate.
Qed.

Lemma trimEnd_empty_iff s :
  Js.trimEnd s = "" <-> Js.all_chars Js.is_space s = true.
Proof.
  induction s as [|c s IH]; simpl; [tauto|].
  destruct (Js.trimEnd s) as [|d t].
  - destruct (Js.is_space c); simpl.
    + split; [intros _; now apply IH | reflexivity].
    + split; discriminate.
  - split; [discriminate|]. intros H. apply andb_true_iff in H as [_ H].
    apply IH in H. discriminate.
Qed.

Lemma trimStart_head s c t : Js.trimStart s = String c t -> Js.is_space c = false.
Proof.
  induction s as [|d s IH]; simpl; [discriminate|].
  destruct (Js.is_space d) eqn:E; [exact IH|].
  intros H. injection H as <- _. exact E.
Qed.

(** The trimmed term is empty exactly when the term is made of white space
    only (or of nothing). *)
Lemma trim_empty_iff s :
  Js.trim s = "" <-> Js.all_chars Js.is_space s = true.
Proof.
  unfold Js.trim. rewrite trimEnd_empty_iff.
  transitivity (Js.trimStart s = ""); [|apply trimStart_empty_iff].
  destruct (Js.trimStart s) as [|c t] eqn:E; [tauto|].
  simpl. rewrite (trimStart_head _ _ _ E). simpl. split; discriminate.
Qed.

Lemma search_with_str select (L : Type) tbl req s :
  q req = Str s ->
  @search_with select L tbl req
  = if String.eqb (Js.trim s) "" then
      (mkResponse 400 (Error "Missing query parameter q" None), [])
    else
      match select tbl (like_term (Js.trim s)) (effective_limit (limit req)) with
      | Some rows =>
          (mkResponse 200 (Search (Js.trim s) (List.length rows) rows),
           [Search_query (like_term (Js.trim s)) (effective_limit (limit req))])
      | None =>
          (mkResponse 500 (Error "Search failed" (Some Datatype_mismatch)),
           [Search_query (like_term (Js.trim s)) (effective_limit (limit req))])
      end.
Proof. intros Hq. unfold search_with. now rewrite Hq, or_else_str. Qed.

(** C9. A search whose [q] is missing, empty or made of white space only is
    answered 400 with the error "Missing query parameter q", without any
    call to the database; a [q] with anything else in it is not answered
    400.  Both versions of the handler. *)
Theorem search_without_term_is_rejected :
  forall tbl req,
    (q req = Absent \/
     (exists s, q req = Str s /\ Js.all_chars Js.is_space s = true) ->
     ServerJs.get_ichi_search tbl req
     = (mkResponse 400 (Error "Missing query parameter q" None), []) /\
     Refactored.get_ichi_search tbl req
     = (mkResponse 400 (Error "Missing query parameter q" None), [])) /\
    (forall s, q req = Str s -> Js.all_chars Js.is_space s = false ->
     status (fst (ServerJs.get_ichi_search tbl req)) <> 400 /\
     status (fst (Refactored.get_ichi_search tbl req)) <> 400).
Proof.
  intros tbl req. split.
  - intros [Hq | [s [Hq Hs]]].
    + unfold ServerJs.get_ichi_search, Refactored.get_ichi_search, search_with.
      rewrite Hq. split; reflexivity.
    + apply trim_empty_iff in Hs.
      unfold ServerJs.get_ichi_search, Refactored.get_ichi_search.
      rewrite !(search_with_str _ _ _ _ s Hq), Hs. split; reflexivity.
  - intros s Hq Hs.
    assert (Ht : String.eqb (Js.trim s) "" = false).
    { apply not_true_iff_false. rewrite String.eqb_eq, trim_empty_iff.
      now rewrite Hs. }
    unfold ServerJs.get_ichi_search, Refactored.get_ichi_search.
    rewrite !(search_with_str _ _ _ _ s Hq), Ht. split.
    + destruct (ServerJs.select_search _ _ _); simpl; discriminate.
    + destruct (Refactored.select_search _ _ _); simpl; discriminate.
Qed.

Lemma search_without_term_is_rejected_witness :
  ServerJs.get_ichi_search [] (mkQuery (Str "   ") Absent Absent Absent)
  = (mkResponse 400 (Error "Missing query parameter q" None), []) /\
  Refactored.get_ichi_search [] (mkQuery (Str "   ") Absent Absent Absent)
  = (mkResponse 400 (Error "Missing query parameter q" None), []).
Proof.
  apply (proj1 (search_without_term_is_rejected
                  [] (mkQuery (Str "   ") Absent Absent Absent))).
  right. exists "   ". split; reflexivity.
Defined.

End SearchTerm.

(** ** The search handlers: what a term matches *)

Section SearchMatch.
Import Sqlite Http.
Local Open Scope list_scope.
Local Open Scope Z_scope.




End SearchMatch.

(** ** Pagination and sorting *)

Section Pagination.
Import Sqlite Http.
Local Open Scope list_scope.
Local Open Scope Z_scope.




(** C7. A [sort] that is not the string "Title" is answered as [sort=Code],
    row for row; and the column spliced after ORDER BY is "Code" or "Title"
    whatever the request says.  Both versions of the handler. *)
Theorem sort_is_whitelisted :
  forall tbl req,
    (sort req <> Str "Title" ->
     ServerJs.get_ichi tbl req
     = ServerJs.get_ichi tbl (mkQuery (q req) (limit req) (offset req) (Str "Code")) /\
     Refactored.get_ichi tbl req
     = Refactored.get_ichi tbl (mkQuery (q req) (limit req) (offset req) (Str "Code"))) /\
    (sortColumn (sort req) = "Code" \/ sortColumn (sort req) = "Title") /\
    (exists l o,
        snd (ServerJs.get_ichi tbl req) = [List_query (sortColumn (sort req)) l o] /\
        snd (Refactored.get_ichi tbl req) = [List_query (sortColumn (sort req)) l o]).
Proof.
  intros tbl req.
  assert (Hcol : sort req <> Str "Title" -> sortColumn (sort req) = "Code").
  { destruct (sort req) as [|s|s]; try reflexivity. simpl. intros H.
    destruct (String.eqb_spec s "Title") as [->|_]; [now elim H | reflexivity]. }
  split; [|split].
  - intros H. unfold ServerJs.get_ichi, Refactored.get_ichi. simpl.
    rewrite (Hcol H). split; reflexivity.
  - destruct (sort req) as [|s|s]; simpl; auto.
    destruct (String.eqb s "Title"); auto.
  - exists (effective_limit (limit req)), (effective_offset (offset req)).
    unfold ServerJs.get_ichi, Refactored.get_ichi.
    destruct (select_list tbl _ _ _); split; reflexivity.
Qed.

Lemma sort_is_whitelisted_witness :
  let tbl := [mkEntry "B" "Block" "a" "Category" 1;
              mkEntry "A" "Block" "b" "Category" 1] in
  ServerJs.get_ichi tbl (mkQuery Absent Absent Absent (Str "Title; DROP TABLE ICHI"))
  = ServerJs.get_ichi tbl (mkQuery Absent Absent Absent (Str "Code")) /\
  Refactored.get_ichi tbl (mkQuery Absent Absent Absent (Str "Title; DROP TABLE ICHI"))
  = Refactored.get_ichi tbl (mkQuery Absent Absent Absent (Str "Code")).
Proof.
  cbv zeta.
  apply (proj1 (sort_is_whitelisted
                  [mkEntry "B" "Block" "a" "Category" 1;
                   mkEntry "A" "Block" "b" "Category" 1]
                  (mkQuery Absent Absent Absent (Str "Title; DROP TABLE ICHI")))).
  discriminate.
Defined.

End Pagination.

(** * Further properties of the handlers *)

(** ** Trimming *)

Section TrimFacts.

Lemma trimEnd_idem s : Js.trimEnd (Js.trimEnd s) = Js.trimEnd s.
Proof.
  induction s as [|c s IH]; [reflexivity|].
  simpl. destruct (Js.trimEnd s) as [|d t] eqn:E.
  - destruct (Js.is_space c) eqn:Hc; [reflexivity|]. simpl. now rewrite Hc.
  - change (Js.trimEnd (String c (String d t)))
      with (match Js.trimEnd (String d t) with
            | EmptyString =>
                if Js.is_space c then EmptyString else String c EmptyString
            | String a u => String c (String a u)
            end).
    now rewrite IH.
Qed.

Lemma trimEnd_keeps_head c s :
  Js.is_space c = false -> exists t, Js.trimEnd (String c s) = String c t.
Proof.
  intros Hc. simpl. destruct (Js.trimEnd s) as [|d t].
  - rewrite Hc. now exists EmptyString.
  - now exists (String d t).
Qed.

Lemma trimStart_fixed s :
  (forall c t, s = String c t -> Js.is_space c = false) -> Js.trimStart s = s.
Proof.
  destruct s as [|c t]; [reflexivity|]. intros H. simpl.
  now rewrite (H c t eq_refl).
Qed.

Lemma trimStart_of_trim s : Js.trimStart (Js.trim s) = Js.trim s.
Proof.
  unfold Js.trim. destruct (Js.trimStart s) as [|c t] eqn:E; [reflexivity|].
  pose proof (trimStart_head _ _ _ E) as Hc.
  destruct (trimEnd_keeps_head c t Hc) as [u Hu]. rewrite Hu.
  simpl. now rewrite Hc.
Qed.

(** Trimming twice is trimming once. *)
Lemma trim_idem s : Js.trim (Js.trim s) = Js.trim s.
Proof.
  unfold Js.trim at 1. rewrite trimStart_of_trim.
  unfold Js.trim. apply trimEnd_idem.
Qed.

End TrimFacts.

(** ** Looking a code up *)

Section LookupFacts.
Import Sqlite.
Local Open Scope list_scope.
Local Open Scope Z_scope.

Lemma select_code_some tbl code e :
  Lookup.select_code tbl code = Some e -> In e tbl /\ Code e = code.
Proof.
  unfold Lookup.select_code. intros H. apply find_some in H as [H1 H2].
  now apply String.eqb_eq in H2.
Qed.

Lemma select_code_present tbl e :
  In e tbl -> exists e', Lookup.select_code tbl (Code e) = Some e'.
Proof.
  intros Hin. unfold Lookup.select_code.
  destruct (find (fun x => String.eqb (Code x) (Code e)) tbl) as [e'|] eqn:E.
  - now exists e'.
  - pose proof (find_none _ _ E e Hin) as H. simpl in H.
    now rewrite String.eqb_refl in H.
Qed.

Lemma select_code_none tbl code :
  Lookup.select_code tbl code = None <-> forall e, In e tbl -> Code e <> code.
Proof.
  split.
  - intros H e Hin Heq. pose proof (find_none _ _ H e Hin) as H'. simpl in H'.
    rewrite Heq, String.eqb_refl in H'. discriminate.
  - intros H. destruct (Lookup.select_code tbl code) as [e|] eqn:E; [|reflexivity].
    apply select_code_some in E as [Hin Heq]. now elim (H e Hin).
Qed.

(** The lookup of [server.js] answers 200 exactly when a stored row has the
    code of the request, character for character, and 404 exactly when none
    has; the row it returns has that code and the title stored with it; the
    database is asked once, for the code as received. *)
Theorem server_js_lookup_finds_stored_codes :
  forall tbl code,
    (Lookup.status (fst (Lookup.server_js tbl code)) = 200 <->
     exists e, In e tbl /\ Code e = code) /\
    (fst (Lookup.server_js tbl code) = Lookup.Failure 404 "Code not found" <->
     forall e, In e tbl -> Code e <> code) /\
    (forall h, fst (Lookup.server_js tbl code) = Lookup.Row h ->
               Hit.Code h = code /\
               exists e, In e tbl /\ Code e = code /\ Hit.Title h = Title e) /\
    snd (Lookup.server_js tbl code) = [code].
Proof.
  intros tbl code. unfold Lookup.server_js.
  destruct (Lookup.select_code tbl code) as [e|] eqn:E; simpl.
  - destruct (select_code_some _ _ _ E) as [Hin Hc].
    split; [|split; [|split]].
    + split; [intros _; now exists e | reflexivity].
    + split; [discriminate|]. intros H. now elim (H e Hin).
    + intros h Hh. injection Hh as <-. simpl. split; [exact Hc|]. now exists e.
    + reflexivity.
  - pose proof (proj1 (select_code_none tbl code) E) as Hnone.
    split; [|split; [|split]].
    + split; [discriminate|]. intros [e [Hin Hc]]. now elim (Hnone e Hin).
    + split; [intros _; exact Hnone | reflexivity].
    + discriminate.
    + reflexivity.
Qed.

Lemma server_js_lookup_finds_stored_codes_witness :
  Hit.Code (Hit.mk "Removal of appendix" "KBO.JB.AE") = "KBO.JB.AE" /\
  exists e,
    In e [mkEntry "KBO.JB.AE" "Block" "Removal of appendix" "Category" 1] /\
    Code e = "KBO.JB.AE" /\
    Hit.Title (Hit.mk "Removal of appendix" "KBO.JB.AE") = Title e.
Proof.
  apply (proj1 (proj2 (proj2 (server_js_lookup_finds_stored_codes
           [mkEntry "KBO.JB.AE" "Block" "Removal of appendix" "Category" 1]
           "KBO.JB.AE")))
         (Hit.mk "Removal of appendix" "KBO.JB.AE")).
  reflexivity.
Defined.

(** The refactored lookup trims the code first.  A code made of white space
    only is answered 400 "Missing code parameter" without asking the
    database; any other is answered as the stored rows have its trimmed form
    or not: 200 with the row, all columns, or 404. *)
Theorem refactored_lookup_trims_the_code :
  forall tbl param,
    (Js.all_chars Js.is_space param = true ->
     Lookup.refactored tbl param
     = (Lookup.Failure 400 "Missing code parameter", [])) /\
    (Js.all_chars Js.is_space param = false ->
     snd (Lookup.refactored tbl param) = [Js.trim param] /\
     (Lookup.status (fst (Lookup.refactored tbl param)) = 200 <->
      exists e, In e tbl /\ Code e = Js.trim param) /\
     (fst (Lookup.refactored tbl param) = Lookup.Failure 404 "Code not found" <->
      forall e, In e tbl -> Code e <> Js.trim param) /\
     (forall e, fst (Lookup.refactored tbl param) = Lookup.Row e ->
                In e tbl /\ Code e = Js.trim param)).
Proof.
  intros tbl param. unfold Lookup.refactored. split.
  - intros H. apply trim_empty_iff in H. now rewrite H.
  - intros H.
    assert (Ht : String.eqb (Js.trim param) "" = false).
    { apply not_true_iff_false. rewrite String.eqb_eq, trim_empty_iff.
      now rewrite H. }
    rewrite Ht.
    destruct (Lookup.select_code tbl (Js.trim param)) as [e|] eqn:E; simpl.
    + destruct (select_code_some _ _ _ E) as [Hin Hc].
      split; [reflexivity|]. split; [|split].
      * split; [intros _; now exists e | reflexivity].
      * split; [discriminate|]. intros Hn. now elim (Hn e Hin).
      * intros e' He'. injection He' as <-. auto.
    + pose proof (proj1 (select_code_none _ _) E) as Hnone.
      split; [reflexivity|]. split; [|split].
      * split; [discriminate|]. intros [e [Hin Hc]]. now elim (Hnone e Hin).
      * split; [intros _; exact Hnone | reflexivity].
      * discriminate.
Qed.

Lemma refactored_lookup_trims_the_code_witness :
  Lookup.refactored [mkEntry "KBO" "Block" "Appendix" "Category" 2] "   "
  = (Lookup.Failure 400 "Missing code parameter", []) /\
  snd (Lookup.refactored [mkEntry "KBO" "Block" "Appendix" "Category" 2] " KBO ")
  = ["KBO"].
Proof.
  split.
  - apply (proj1 (refactored_lookup_trims_the_code
                    [mkEntry "KBO" "Block" "Appendix" "Category" 2] "   ")).
    reflexivity.
  - apply (proj2 (refactored_lookup_trims_the_code
                    [mkEntry "KBO" "Block" "Appendix" "Category" 2] " KBO ")).
    reflexivity.
Defined.

Lemma refactored_lookup_present tbl e param :
  In e tbl -> Js.trim (Code e) = Code e -> Code e <> "" ->
  Js.trim param = Code e ->
  exists e', fst (Lookup.refactored tbl param) = Lookup.Row e' /\
             In e' tbl /\ Code e' = Code e.
Proof.
  intros Hin Htrim Hne Hp. unfold Lookup.refactored. rewrite Hp.
  destruct (String.eqb_spec (Code e) "") as [E|_]; [now elim Hne|].
  destruct (select_code_present tbl e Hin) as [e' He']. rewrite He'.
  exists e'. apply select_code_some in He' as [H1 H2]. auto.
Qed.

(** A stored row can be fetched through the refactored lookup exactly when
    its code is not empty and has no white space at either end: the row the
    lookup returns has such a code, and every such code is found, with or
    without white space around it in the request. *)
Theorem refactored_lookup_reaches_trimmed_codes_only :
  forall tbl,
    (forall param e, fst (Lookup.refactored tbl param) = Lookup.Row e ->
                     Js.trim (Code e) = Code e /\ Code e <> "") /\
    (forall e param, In e tbl -> Js.trim (Code e) = Code e -> Code e <> "" ->
                     Js.trim param = Code e ->
                     exists e', fst (Lookup.refactored tbl param) = Lookup.Row e' /\
                                In e' tbl /\ Code e' = Code e).
Proof.
  intros tbl. split.
  - intros param e. unfold Lookup.refactored.
    destruct (String.eqb_spec (Js.trim param) "") as [|Hne]; [discriminate|].
    destruct (Lookup.select_code tbl (Js.trim param)) as [e'|] eqn:E;
      [|discriminate].
    simpl. intros H. injection H as <-.
    apply select_code_some in E as [_ Hc]. rewrite Hc.
    split; [apply trim_idem | exact Hne].
  - intros e param. apply refactored_lookup_present.
Qed.

Lemma refactored_lookup_reaches_trimmed_codes_only_witness :
  exists e', fst (Lookup.refactored
                    [mkEntry "KBO" "Block" "Appendix" "Category" 2] " KBO ")
             = Lookup.Row e' /\
             In e' [mkEntry "KBO" "Block" "Appendix" "Category" 2] /\
             Code e' = "KBO".
Proof.
  apply (proj2 (refactored_lookup_reaches_trimmed_codes_only
                  [mkEntry "KBO" "Block" "Appendix" "Category" 2])
           (mkEntry "KBO" "Block" "Appendix" "Category" 2) " KBO ").
  - simpl; auto.
  - reflexivity.
  - discriminate.
  - reflexivity.
Defined.

End LookupFacts.



(** ** Order and size of the results *)

Section OrderFacts.
Import Sqlite Http.
Local Open Scope list_scope.

Lemma hdrel_insert_by {A} (key : A -> string) a x l :
  HdRel (fun u v => String.leb (key u) (key v) = true) a l ->
  String.leb (key a) (key x) = true ->
  HdRel (fun u v => String.leb (key u) (key v) = true) a (insert_by key x l).
Proof.
  intros Hl Hx. destruct l as [|y l]; simpl.
  - now constructor.
  - destruct (String.leb (key x) (key y)); constructor;
      [exact Hx | now apply HdRel_inv in Hl].
Qed.

Lemma ascending_insert_by {A} (key : A -> string) x l :
  ascending key l -> ascending key (insert_by key x l).
Proof.
  unfold ascending. induction l as [|y l IH]; intros Hs; simpl.
  - repeat constructor.
  - apply Sorted_inv in Hs as [Hs Hhd].
    destruct (String.leb (key x) (key y)) eqn:E.
    + constructor; [now constructor | now constructor].
    + constructor; [now apply IH|].
      apply hdrel_insert_by; [exact Hhd|].
      destruct (String.leb_total (key x) (key y)) as [H|H];
        [rewrite H in E; discriminate | exact H].
Qed.

Lemma ascending_order_by {A} (key : A -> string) l : ascending key (order_by key l).
Proof.
  induction l as [|x l IH]; simpl; [constructor | now apply ascending_insert_by].
Qed.

Lemma ascending_firstn {A} (key : A -> string) n l :
  ascending key l -> ascending key (firstn n l).
Proof.
  unfold ascending. revert l. induction n as [|n IH]; intros [|x l] Hs; simpl;
    try constructor.
  - apply IH. now apply Sorted_inv in Hs.
  - apply Sorted_inv in Hs as [_ Hhd].
    destruct n; [constructor|]. destruct l as [|y l]; simpl; [constructor|].
    constructor. now apply HdRel_inv in Hhd.
Qed.

Lemma ascending_skipn {A} (key : A -> string) n l :
  ascending key l -> ascending key (skipn n l).
Proof.
  unfold ascending. revert l. induction n as [|n IH]; intros [|x l] Hs; simpl;
    try assumption.
  apply IH. now apply Sorted_inv in Hs.
Qed.

Lemma ascending_limit_rows {A} (key : A -> string) n l :
  ascending key l -> ascending key (limit_rows n l).
Proof.
  unfold limit_rows. destruct (n <? 0)%Z; [tauto | apply ascending_firstn].
Qed.

Lemma ascending_map {A B} (f : A -> B) (key : B -> string) l :
  ascending (fun a => key (f a)) l -> ascending key (map f l).
Proof.
  unfold ascending. induction l as [|x l IH]; intros Hs; simpl; [constructor|].
  apply Sorted_inv in Hs as [Hs Hhd]. constructor; [now apply IH|].
  destruct l; simpl; constructor. now apply HdRel_inv in Hhd.
Qed.

(** The rows of a search are in ascending order of [Code], in both versions
    of the handler, whatever the request. *)
Theorem search_results_are_in_code_order :
  forall tbl req,
    ascending Hit.Code (hits (fst (ServerJs.get_ichi_search tbl req))) /\
    ascending Hit.Code (hits (fst (Refactored.get_ichi_search tbl req))).
Proof.
  intros tbl req.
  unfold ServerJs.get_ichi_search, Refactored.get_ichi_search, search_with, hits.
  destruct (or_else (q req) "") as [|s|s]; simpl;
    try (split; constructor).
  destruct (String.eqb (Js.trim s) ""); simpl; [split; constructor|].
  unfold ServerJs.select_search, Refactored.select_search.
  destruct (bind_integer (effective_limit (limit req))) as [n|]; simpl;
    [|split; constructor].
  split; apply ascending_map, ascending_limit_rows;
    exact (ascending_order_by Code _).
Qed.

Lemma ascending_select_list tbl column key limit offset rows :
  order_key column = Some key ->
  select_list tbl column limit offset = Some rows -> ascending key rows.
Proof.
  unfold select_list. intros ->.
  destruct (bind_integer limit) as [n|]; [|discriminate].
  destruct (bind_integer offset) as [m|]; [|discriminate].
  intros E. injection E as <-.
  apply ascending_limit_rows, ascending_skipn, ascending_order_by.
Qed.

(** The rows of a list are in ascending order of [Title] when the request
    says [sort=Title], and of [Code] for every other request. *)
Theorem list_results_are_in_sort_order :
  forall tbl req,
    (sort req = Str "Title" ->
     ascending Hit.Title (listed (fst (ServerJs.get_ichi tbl req))) /\
     ascending Title (listed (fst (Refactored.get_ichi tbl req)))) /\
    (sort req <> Str "Title" ->
     ascending Hit.Code (listed (fst (ServerJs.get_ichi tbl req))) /\
     ascending Code (listed (fst (Refactored.get_ichi tbl req)))).
Proof.
  intros tbl req. unfold ServerJs.get_ichi, Refactored.get_ichi, listed. split.
  - intros Hs. rewrite Hs. simpl sortColumn.
    destruct (select_list tbl "Title" _ _) as [rows|] eqn:E; simpl;
      [|split; constructor].
    pose proof (ascending_select_list tbl "Title" Title _ _ _ eq_refl E) as H.
    split; [now apply ascending_map | exact H].
  - intros Hs.
    assert (Hc : sortColumn (sort req) = "Code").
    { destruct (sort req) as [|s|s]; try reflexivity. simpl.
      destruct (String.eqb_spec s "Title") as [->|_]; [now elim Hs | reflexivity]. }
    rewrite Hc.
    destruct (select_list tbl "Code" _ _) as [rows|] eqn:E; simpl;
      [|split; constructor].
    pose proof (ascending_select_list tbl "Code" Code _ _ _ eq_refl E) as H.
    split; [now apply ascending_map | exact H].
Qed.

Lemma list_results_are_in_sort_order_witness :
  let tbl := [mkEntry "B" "Block" "alpha" "Category" 1;
              mkEntry "A" "Block" "beta" "Category" 1] in
  (ascending Hit.Title
     (listed (fst (ServerJs.get_ichi tbl (mkQuery Absent Absent Absent (Str "Title"))))) /\
   ascending Title
     (listed (fst (Refactored.get_ichi tbl (mkQuery Absent Absent Absent (Str "Title")))))) /\
  (ascending Hit.Code
     (listed (fst (ServerJs.get_ichi tbl (mkQuery Absent Absent Absent (Str "title"))))) /\
   ascending Code
     (listed (fst (Refactored.get_ichi tbl (mkQuery Absent Absent Absent (Str "title")))))).
Proof.
  cbv zeta. split.
  - apply (proj1 (list_results_are_in_sort_order
                    [mkEntry "B" "Block" "alpha" "Category" 1;
                     mkEntry "A" "Block" "beta" "Category" 1]
                    (mkQuery Absent Absent Absent (Str "Title")))).
    reflexivity.
  - apply (proj2 (list_results_are_in_sort_order
                    [mkEntry "B" "Block" "alpha" "Category" 1;
                     mkEntry "A" "Block" "beta" "Category" 1]
                    (mkQuery Absent Absent Absent (Str "title")))).
    discriminate.
Defined.

End OrderFacts.

Section SizeFacts.
Import Sqlite Http.
Local Open Scope list_scope.
Local Open Scope Z_scope.

Lemma length_limit_rows {A} n (l : list A) :
  0 <= n -> Z.of_nat (List.length (limit_rows n l)) <= n.
Proof.
  intros Hn. unfold limit_rows.
  destruct (Z.ltb_spec n 0) as [H|_]; [lia|].
  pose proof (firstn_le_length (Z.to_nat n) l). lia.
Qed.

Lemma length_select_list tbl column n offset rows :
  0 <= n -> select_list tbl column (Js.Num n) offset = Some rows ->
  Z.of_nat (List.length rows) <= n.
Proof.
  unfold select_list. intros Hn.
  destruct (order_key column) as [key|]; [|discriminate].
  destruct (bind_integer (Js.Num n)) as [n'|] eqn:En; [|discriminate].
  destruct (bind_integer offset) as [m|]; [|discriminate].
  intros E. injection E as <-.
  simpl in En. destruct (_ && _); [|discriminate]. injection En as <-.
  now apply length_limit_rows.
Qed.

(** When the requested limit reads as an integer [k >= 0], no search and no
    list returns more than [min k 1000] rows: at most 1000, whatever is
    asked and however large the table is.  All four handlers. *)
Theorem responses_have_at_most_limit_rows :
  forall tbl req k,
    Js.parseInt (to_string (or_else (limit req) "100")) = Js.Num k -> 0 <= k ->
    Z.of_nat (List.length (hits (fst (ServerJs.get_ichi_search tbl req))))
    <= Z.min k 1000 /\
    Z.of_nat (List.length (hits (fst (Refactored.get_ichi_search tbl req))))
    <= Z.min k 1000 /\
    Z.of_nat (List.length (listed (fst (ServerJs.get_ichi tbl req))))
    <= Z.min k 1000 /\
    Z.of_nat (List.length (listed (fst (Refactored.get_ichi tbl req))))
    <= Z.min k 1000.
Proof.
  intros tbl req k Hk Hpos.
  assert (Hl : effective_limit (limit req) = Js.Num (Z.min k 1000))
    by (unfold effective_limit; now rewrite Hk).
  assert (Hm : 0 <= Z.min k 1000) by lia.
  assert (Hsearch : forall (select : list entry -> string -> Js.number -> option (list Hit.t)) L,
             (forall term rows, select tbl term (Js.Num (Z.min k 1000)) = Some rows ->
                                Z.of_nat (List.length rows) <= Z.min k 1000) ->
             Z.of_nat (List.length (hits (fst (@search_with select L tbl req))))
             <= Z.min k 1000).
  { intros select L Hsel. unfold search_with, hits.
    destruct (or_else (q req) "") as [|s|s]; simpl; try lia.
    destruct (String.eqb (Js.trim s) ""); simpl; [lia|]. rewrite Hl.
    destruct (select tbl _ _) as [rows|] eqn:E; simpl; [|lia].
    exact (Hsel _ _ E). }
  split; [|split; [|split]].
  - apply Hsearch. intros term rows. unfold ServerJs.select_search.
    destruct (bind_integer _) as [n|] eqn:En; [|discriminate].
    simpl in En. destruct (_ && _); [|discriminate]. injection En as <-.
    intros E. injection E as <-. rewrite length_map. now apply length_limit_rows.
  - apply Hsearch. intros term rows. unfold Refactored.select_search.
    destruct (bind_integer _) as [n|] eqn:En; [|discriminate].
    simpl in En. destruct (_ && _); [|discriminate]. injection En as <-.
    intros E. injection E as <-. rewrite length_map. now apply length_limit_rows.
  - unfold ServerJs.get_ichi, listed. rewrite Hl.
    destruct (select_list tbl _ _ _) as [rows|] eqn:E; simpl; [|lia].
    rewrite length_map. exact (length_select_list _ _ _ _ _ Hm E).
  - unfold Refactored.get_ichi, listed. rewrite Hl.
    destruct (select_list tbl _ _ _) as [rows|] eqn:E; simpl; [|lia].
    exact (length_select_list _ _ _ _ _ Hm E).
Qed.

Lemma responses_have_at_most_limit_rows_witness :
  let tbl := [mkEntry "A" "Block" "a1" "Category" 1;
              mkEntry "B" "Block" "a2" "Category" 1;
              mkEntry "C" "Block" "a3" "Category" 1] in
  let req := mkQuery (Str "a") (Str "2") Absent Absent in
  Z.of_nat (List.length (hits (fst (ServerJs.get_ichi_search tbl req)))) <= 2 /\
  Z.of_nat (List.length (hits (fst (Refactored.get_ichi_search tbl req)))) <= 2 /\
  Z.of_nat (List.length (listed (fst (ServerJs.get_ichi tbl req)))) <= 2 /\
  Z.of_nat (List.length (listed (fst (Refactored.get_ichi tbl req)))) <= 2.
Proof.
  cbv zeta.
  apply (responses_have_at_most_limit_rows
           [mkEntry "A" "Block" "a1" "Category" 1;
            mkEntry "B" "Block" "a2" "Category" 1;
            mkEntry "C" "Block" "a3" "Category" 1]
           (mkQuery (Str "a") (Str "2") Absent Absent) 2).
  - reflexivity.
  - lia.
Defined.

(** White space around the term changes nothing: a search for [s] is
    answered, and asks the database, exactly as a search for [s] trimmed. *)
Theorem search_ignores_white_space_around_the_term :
  forall tbl s limit offset sort,
    ServerJs.get_ichi_search tbl (mkQuery (Str s) limit offset sort)
    = ServerJs.get_ichi_search tbl (mkQuery (Str (Js.trim s)) limit offset sort) /\
    Refactored.get_ichi_search tbl (mkQuery (Str s) limit offset sort)
    = Refactored.get_ichi_search tbl (mkQuery (Str (Js.trim s)) limit offset sort).
Proof.
  intros tbl s limit offset sort.
  unfold ServerJs.get_ichi_search, Refactored.get_ichi_search.
  rewrite !(search_with_str _ _ _ (mkQuery (Str s) limit offset sort) s eq_refl).
  rewrite !(search_with_str _ _ _ (mkQuery (Str (Js.trim s)) limit offset sort)
              (Js.trim s) eq_refl).
  rewrite trim_idem. split; reflexivity.
Qed.

Lemma char_eq_nocase_left a b d :
  char_eq_nocase a b = true -> char_eq_nocase a d = char_eq_nocase b d.
Proof.
  unfold char_eq_nocase. intros H.
  destruct (Ascii.eqb_spec a b) as [->|Hab]; [reflexivity|].
  simpl in H. apply andb_true_iff in H as [H Hb].
  apply andb_true_iff in H as [Hl Ha]. apply Ascii.eqb_eq in Hl.
  rewrite Ha, Hb, Hl.
  destruct (Ascii.eqb_spec a d) as [Ead|Had], (Ascii.eqb_spec b d) as [Ebd|Hbd];
    simpl; try reflexivity.
  - subst d. now rewrite <- Hl, Ascii.eqb_refl, Ha.
  - subst d. now rewrite Ascii.eqb_refl, Hb.
Qed.

Lemma startsWith_nocase_same s q1 q2 :
  same_letters q1 q2 = true -> startsWith_nocase s q1 = startsWith_nocase s q2.
Proof.
  revert s q2. induction q1 as [|a q1 IH]; intros s [|b q2] H;
    try discriminate; [reflexivity|].
  simpl in H. apply andb_true_iff in H as [Hab H].
  destruct s as [|d s]; [reflexivity|]. simpl.
  now rewrite (char_eq_nocase_left a b d Hab), (IH s q2 H).
Qed.

Lemma includes_nocase_same s q1 q2 :
  same_letters q1 q2 = true -> includes_nocase s q1 = includes_nocase s q2.
Proof.
  intros H. induction s as [|c s IH].
  - simpl. now rewrite (startsWith_nocase_same _ _ _ H).
  - change (includes_nocase (String c s) q1)
      with (startsWith_nocase (String c s) q1 || includes_nocase s q1).
    change (includes_nocase (String c s) q2)
      with (startsWith_nocase (String c s) q2 || includes_nocase s q2).
    now rewrite IH, (startsWith_nocase_same _ _ _ H).
Qed.

(** The case of the letters of the term changes nothing: two terms without
    backslash that differ only by the case of ASCII letters get the same
    rows, in both versions of the handler. *)
Theorem search_ignores_the_case_of_the_term :
  forall tbl s1 s2 limit offset sort,
    same_letters (Js.trim s1) (Js.trim s2) = true ->
    no_backslash (Js.trim s1) = true -> no_backslash (Js.trim s2) = true ->
    hits (fst (ServerJs.get_ichi_search tbl (mkQuery (Str s1) limit offset sort)))
    = hits (fst (ServerJs.get_ichi_search tbl (mkQuery (Str s2) limit offset sort))) /\
    hits (fst (Refactored.get_ichi_search tbl (mkQuery (Str s1) limit offset sort)))
    = hits (fst (Refactored.get_ichi_search tbl (mkQuery (Str s2) limit offset sort))).
Proof.
  intros tbl s1 s2 limit offset sort Hsame Hb1 Hb2.
  unfold ServerJs.get_ichi_search, Refactored.get_ichi_search.
  rewrite !(search_with_str _ _ _ (mkQuery (Str s1) limit offset sort) s1 eq_refl).
  rewrite !(search_with_str _ _ _ (mkQuery (Str s2) limit offset sort) s2 eq_refl).
  simpl Http.limit.
  destruct (Js.trim s1) as [|a t1] eqn:E1, (Js.trim s2) as [|b t2] eqn:E2;
    try discriminate; [split; reflexivity|].
  rewrite <- E1, <- E2 in *.
  assert (Hn1 : String.eqb (Js.trim s1) "" = false) by now rewrite E1.
  assert (Hn2 : String.eqb (Js.trim s2) "" = false) by now rewrite E2.
  rewrite Hn1, Hn2.
  unfold ServerJs.select_search, Refactored.select_search.
  destruct (bind_integer (effective_limit limit)) as [n|]; [|split; reflexivity].
  rewrite (filter_ext (fun e => like (like_term (Js.trim s1)) (Title e))
             (fun e => like (like_term (Js.trim s2)) (Title e))).
  2:{ intros e. rewrite !like_term_includes by assumption.
      now apply includes_nocase_same. }
  rewrite (filter_ext (Refactored.where_clause (like_term (Js.trim s1)))
             (Refactored.where_clause (like_term (Js.trim s2)))).
  2:{ intros e. unfold Refactored.where_clause.
      rewrite !like_term_includes by assumption.
      now rewrite (includes_nocase_same _ _ _ Hsame). }
  split; reflexivity.
Qed.

Lemma search_ignores_the_case_of_the_term_witness :
  let tbl := [mkEntry "KBO.JB.AE" "Block" "Removal of Appendix" "Category" 1] in
  hits (fst (ServerJs.get_ichi_search tbl (mkQuery (Str "APPENDIX") Absent Absent Absent)))
  = hits (fst (ServerJs.get_ichi_search tbl (mkQuery (Str "appendix") Absent Absent Absent))) /\
  hits (fst (Refactored.get_ichi_search tbl (mkQuery (Str "APPENDIX") Absent Absent Absent)))
  = hits (fst (Refactored.get_ichi_search tbl (mkQuery (Str "appendix") Absent Absent Absent))).
Proof.
  cbv zeta.
  apply (search_ignores_the_case_of_the_term
           [mkEntry "KBO.JB.AE" "Block" "Removal of Appendix" "Category" 1]
           "APPENDIX" "appendix" Absent Absent Absent); reflexivity.
Defined.

End SizeFacts.

Section PageFacts.
Import Sqlite Http.
Local Open Scope list_scope.
Local Open Scope Z_scope.

Lemma firstn_add {A} a b (l : list A) :
  firstn (a + b) l = firstn a l ++ firstn b (skipn a l).
Proof.
  revert l. induction a as [|a IH]; intros l; [reflexivity|].
  destruct l as [|x l]; simpl.
  - now rewrite firstn_nil.
  - now rewrite IH.
Qed.

Lemma bind_integer_in_range z :
  - 2 ^ 63 <= z < 2 ^ 63 -> bind_integer (Js.Num z) = Some z.
Proof.
  intros [H1 H2]. unfold bind_integer.
  destruct (Z.leb_spec (- 2 ^ 63) z), (Z.ltb_spec z (2 ^ 63)); simpl;
    try reflexivity; lia.
Qed.

Lemma page_tiling {A} (L : list A) l1 l2 o :
  0 <= l1 -> 0 <= l2 -> 0 <= o ->
  limit_rows l1 (offset_rows o L) ++ limit_rows l2 (offset_rows (o + l1) L)
  = limit_rows (l1 + l2) (offset_rows o L).
Proof.
  intros H1 H2 Ho. unfold limit_rows, offset_rows.
  destruct (Z.ltb_spec l1 0), (Z.ltb_spec l2 0), (Z.ltb_spec (l1 + l2) 0);
    try lia.
  rewrite !Z2Nat.inj_add by lia.
  rewrite firstn_add, skipn_skipn.
  now rewrite (Nat.add_comm (Z.to_nat l1) (Z.to_nat o)).
Qed.

(** Consecutive pages of a list fit together: the page of [l1] rows at
    offset [o] followed by the page of [l2] rows at offset [o + l1] is the
    page of [l1 + l2] rows at offset [o], for one sort column; no row is
    skipped or repeated between them. *)
Theorem consecutive_pages_tile :
  forall tbl r1 r2 r12 l1 l2 o,
    sortColumn (sort r1) = sortColumn (sort r12) ->
    sortColumn (sort r2) = sortColumn (sort r12) ->
    effective_limit (limit r1) = Js.Num l1 ->
    effective_offset (offset r1) = Js.Num o ->
    effective_limit (limit r2) = Js.Num l2 ->
    effective_offset (offset r2) = Js.Num (o + l1) ->
    effective_limit (limit r12) = Js.Num (l1 + l2) ->
    effective_offset (offset r12) = Js.Num o ->
    0 <= l1 -> 0 <= l2 -> o + l1 < 2 ^ 63 ->
    listed (fst (ServerJs.get_ichi tbl r1)) ++ listed (fst (ServerJs.get_ichi tbl r2))
    = listed (fst (ServerJs.get_ichi tbl r12)) /\
    listed (fst (Refactored.get_ichi tbl r1)) ++ listed (fst (Refactored.get_ichi tbl r2))
    = listed (fst (Refactored.get_ichi tbl r12)).
Proof.
  intros tbl r1 r2 r12 l1 l2 o Hs1 Hs2 Hl1 Ho1 Hl2 Ho2 Hl12 Ho12 H1 H2 Hbig.
  assert (Ho : 0 <= o).
  { unfold effective_offset in Ho1.
    destruct (Js.parseInt _) as [|z]; [discriminate|].
    simpl in Ho1. injection Ho1 as <-. lia. }
  assert (Hsum : l1 + l2 <= 1000).
  { unfold effective_limit in Hl12.
    destruct (Js.parseInt _) as [|z]; [discriminate|].
    simpl in Hl12. injection Hl12 as E. lia. }
  assert (Hpow : 2 ^ 63 = 9223372036854775808) by reflexivity.
  unfold ServerJs.get_ichi, Refactored.get_ichi, listed, select_list.
  rewrite Hs1, Hs2, Hl1, Ho1, Hl2, Ho2, Hl12, Ho12.
  destruct (order_key (sortColumn (sort r12))) as [key|]; [|split; reflexivity].
  rewrite !bind_integer_in_range by lia. simpl.
  rewrite <- map_app, page_tiling by lia. split; reflexivity.
Qed.

Lemma consecutive_pages_tile_witness :
  let tbl := [mkEntry "C" "Block" "c" "Category" 1;
              mkEntry "A" "Block" "a" "Category" 1;
              mkEntry "B" "Block" "b" "Category" 1] in
  listed (fst (ServerJs.get_ichi tbl (mkQuery Absent (Str "1") (Str "0") Absent)))
  ++ listed (fst (ServerJs.get_ichi tbl (mkQuery Absent (Str "1") (Str "1") Absent)))
  = listed (fst (ServerJs.get_ichi tbl (mkQuery Absent (Str "2") (Str "0") Absent))) /\
  listed (fst (Refactored.get_ichi tbl (mkQuery Absent (Str "1") (Str "0") Absent)))
  ++ listed (fst (Refactored.get_ichi tbl (mkQuery Absent (Str "1") (Str "1") Absent)))
  = listed (fst (Refactored.get_ichi tbl (mkQuery Absent (Str "2") (Str "0") Absent))).
Proof.
  cbv zeta.
  apply (consecutive_pages_tile
           [mkEntry "C" "Block" "c" "Category" 1;
            mkEntry "A" "Block" "a" "Category" 1;
            mkEntry "B" "Block" "b" "Category" 1]
           (mkQuery Absent (Str "1") (Str "0") Absent)
           (mkQuery Absent (Str "1") (Str "1") Absent)
           (mkQuery Absent (Str "2") (Str "0") Absent) 1 1 0);
    try reflexivity; lia.
Defined.

End PageFacts.

(** * Further properties of the repair *)

Section SegmentFacts.
Local Open Scope list_scope.

Lemma split_dot_head s : exists t, Js.split_dot s = upto_dot s :: t.
Proof.
  induction s as [|c s [t IH]]; simpl.
  - now exists [].
  - destruct (Ascii.eqb c ".").
    + now exists (Js.split_dot s).
    + rewrite IH. now exists t.
Qed.

(** The corrected code is the parent's code up to its second dot. *)
Lemma first_two_segments_upto c :
  Repair.first_two_segments c = upto_second_dot c.
Proof.
  unfold Repair.first_two_segments, Js.join_dot, Js.slice_0_2.
  induction c as [|a c IH]; [reflexivity|].
  simpl Js.split_dot. simpl upto_second_dot.
  destruct (split_dot_head c) as [t Ht]. rewrite Ht in *.
  destruct (Ascii.eqb_spec a ".") as [->|_].
  - reflexivity.
  - destruct t as [|y t]; simpl in *; now rewrite <- IH.
Qed.

Lemma upto_dot_prefix s : exists u, s = (upto_dot s ++ u)%string.
Proof.
  induction s as [|c s [u IH]]; simpl.
  - now exists EmptyString.
  - destruct (Ascii.eqb c "."); [now exists (String c s)|].
    exists u. simpl. now rewrite <- IH.
Qed.

Lemma upto_second_dot_prefix s : exists u, s = (upto_second_dot s ++ u)%string.
Proof.
  induction s as [|c s [u IH]]; simpl.
  - now exists EmptyString.
  - destruct (Ascii.eqb c ".").
    + destruct (upto_dot_prefix s) as [v Hv]. exists v. simpl. now rewrite <- Hv.
    + exists u. simpl. now rewrite <- IH.
Qed.

Lemma upto_second_dot_extends u t :
  contains_char "." u = false -> t <> EmptyString ->
  exists t', t' <> EmptyString /\
             upto_second_dot (u ++ t) = (u ++ t')%string.
Proof.
  induction u as [|b u IH]; intros Hu Ht.
  - exists (upto_second_dot t). split; [|reflexivity].
    destruct t as [|a t]; [now elim Ht|]. simpl.
    destruct (Ascii.eqb a "."); discriminate.
  - simpl in Hu. apply orb_false_iff in Hu as [Hb Hu].
    destruct (IH Hu Ht) as [t' [Hne E]]. exists t'. split; [exact Hne|].
    simpl. now rewrite Hb, E.
Qed.

Lemma digits_have_no_dot s :
  Js.all_chars Js.is_digit s = true -> contains_char "." s = false.
Proof.
  induction s as [|c s IH]; simpl; [reflexivity|].
  intros H. apply andb_true_iff in H as [Hc Hs]. rewrite (IH Hs).
  destruct (Ascii.eqb_spec c ".") as [->|_]; [discriminate | reflexivity].
Qed.

Lemma flat_tail_has_no_dot s :
  Js.flat_tail s = true -> contains_char "." s = false.
Proof.
  induction s as [|c s IH]; [reflexivity|].
  simpl Js.flat_tail. destruct (Js.is_upper c) eqn:Hc.
  - intros H. simpl. rewrite (IH H).
    destruct (Ascii.eqb_spec c ".") as [->|_]; [discriminate | reflexivity].
  - exact (digits_have_no_dot (String c s)).
Qed.

(** A code with a dot is not a repair candidate. *)
Lemma test_flat_has_no_dot s :
  Js.test_flat s = true -> contains_char "." s = false.
Proof.
  destruct s as [|c s]; [discriminate|]. simpl.
  intros H. apply andb_true_iff in H as [Hc Hs].
  rewrite (flat_tail_has_no_dot _ Hs).
  destruct (Ascii.eqb_spec c ".") as [->|_]; [discriminate | reflexivity].
Qed.

End SegmentFacts.

Section RepairFrame.
Import Repair.
Local Open Scope list_scope.

(** A corrected code continues the code it replaces and stops inside the
    parent's code: it is the old code followed by at least one character,
    and the parent's code starts with it.  The repair never gives a row its
    old code again and never drops a character of it. *)
Theorem corrected_code_extends_the_old_code :
  forall rows row k,
    correctedCode rows row = Some k ->
    exists parent t u,
      find_parent rows row = Some parent /\ In parent rows /\
      t <> EmptyString /\
      k = (code row ++ t)%string /\
      code parent = (k ++ u)%string.
Proof.
  intros rows row k. unfold correctedCode.
  destruct (Js.test_flat (code row)) eqn:Hflat; [|discriminate].
  destruct (find_parent rows row) as [parent|] eqn:Hf; [|discriminate].
  intros E. injection E as <-.
  pose proof Hf as Hf'. unfold find_parent in Hf'.
  apply find_some in Hf' as [Hin Hp].
  apply is_parent_iff in Hp as [_ [[t Ht] Hne]].
  assert (Htne : t <> EmptyString).
  { intros ->. apply Hne. rewrite Ht. clear.
    induction (code row) as [|c s IH]; simpl; [reflexivity | now rewrite IH]. }
  rewrite first_two_segments_upto.
  destruct (upto_second_dot_extends (code row) t
              (test_flat_has_no_dot _ Hflat) Htne) as [t' [Hne' E]].
  destruct (upto_second_dot_prefix (code parent)) as [u Hu].
  assert (Hk : upto_second_dot (code parent) = (code row ++ t')%string)
    by (rewrite Ht; exact E).
  exists parent, t', u.
  split; [reflexivity|]. split; [exact Hin|]. split; [exact Hne'|].
  split; [exact Hk | exact Hu].
Qed.

Lemma corrected_code_extends_the_old_code_witness :
  exists parent t u,
    find_parent [mkRow 1 "HFA" "Drainage";
                 mkRow 2 "HFA.BA.01" "Drainage of abscess"]
                (mkRow 1 "HFA" "Drainage") = Some parent /\
    In parent [mkRow 1 "HFA" "Drainage";
               mkRow 2 "HFA.BA.01" "Drainage of abscess"] /\
    t <> EmptyString /\
    "HFA.BA" = (code (mkRow 1 "HFA" "Drainage") ++ t)%string /\
    code parent = ("HFA.BA" ++ u)%string.
Proof.
  apply (corrected_code_extends_the_old_code
           [mkRow 1 "HFA" "Drainage"; mkRow 2 "HFA.BA.01" "Drainage of abscess"]
           (mkRow 1 "HFA" "Drainage") "HFA.BA").
  reflexivity.
Defined.

Lemma db_update_ids tbl c i : map id (db_update tbl c i) = map id tbl.
Proof.
  unfold db_update. rewrite map_map. apply map_ext. intros r.
  now destruct (Z.eqb (id r) i).
Qed.

Lemma db_update_titles tbl c i : map title (db_update tbl c i) = map title tbl.
Proof.
  unfold db_update. rewrite map_map. apply map_ext. intros r.
  now destruct (Z.eqb (id r) i).
Qed.

Lemma fold_fix_row_frame rows l tbl :
  map id (fold_left (fix_row rows) l tbl) = map id tbl /\
  map title (fold_left (fix_row rows) l tbl) = map title tbl.
Proof.
  revert tbl. induction l as [|x l IH]; intros tbl; [now split|].
  simpl. destruct (IH (fix_row rows tbl x)) as [H1 H2]. rewrite H1, H2.
  unfold fix_row. destruct (correctedCode rows x);
    [now rewrite db_update_ids, db_update_titles | now split].
Qed.

(** A run changes nothing but codes: the ids and the titles of the table
    are the same, row by row, before and after.  When ids identify the rows,
    a row whose code has a dot, and a row for which no row qualifies as a
    parent, are in the table after the run as they were before. *)
Theorem repair_leaves_other_rows_alone :
  forall tbl,
    map id (fixCodes tbl) = map id tbl /\
    map title (fixCodes tbl) = map title tbl /\
    (NoDup (map id tbl) ->
     forall r, In r tbl ->
               contains_char "." (code r) = true \/
               (forall p, In p tbl -> ~ qualifies r p) ->
               In r (fixCodes tbl)).
Proof.
  intros tbl. destruct (fold_fix_row_frame tbl tbl tbl) as [H1 H2].
  split; [exact H1|]. split; [exact H2|].
  intros Hnd r Hin Hcase. rewrite (fixCodes_map _ Hnd).
  apply in_map_iff. exists r. split; [|exact Hin].
  unfold repaired, correctedCode.
  destruct (Js.test_flat (code r)) eqn:Hflat; [|reflexivity].
  destruct Hcase as [Hdot | Hnone].
  - rewrite (test_flat_has_no_dot _ Hflat) in Hdot. discriminate.
  - destruct (find_parent tbl r) as [p|] eqn:Hf; [|reflexivity].
    unfold find_parent in Hf. apply find_some in Hf as [Hp Hq].
    apply is_parent_iff in Hq. now elim (Hnone p Hp).
Qed.

Lemma repair_leaves_other_rows_alone_witness :
  In (mkRow 2 "HFA.BA.01" "Drainage of abscess")
     (fixCodes [mkRow 1 "HFA" "Drainage";
                mkRow 2 "HFA.BA.01" "Drainage of abscess"]).
Proof.
  apply (proj2 (proj2 (repair_leaves_other_rows_alone
           [mkRow 1 "HFA" "Drainage"; mkRow 2 "HFA.BA.01" "Drainage of abscess"]))).
  - repeat constructor; simpl; intuition discriminate.
  - simpl; auto.
  - left. reflexivity.
Defined.

End RepairFrame.

(** * Properties of the FHIR builders *)

Section SplitFacts.
Local Open Scope list_scope.

Lemma split_not_nil sep s : JsValue.split sep s <> [].
Proof.
  destruct s as [|c s]; simpl; [discriminate|].
  destruct (Ascii.eqb c sep); [discriminate|].
  destruct (JsValue.split sep s); discriminate.
Qed.

(** Joining the pieces of a split with the separator gives the string
    back. *)
Lemma join_split sep s :
  String.concat (String sep EmptyString) (JsValue.split sep s) = s.
Proof.
  induction s as [|c s IH]; [reflexivity|].
  simpl JsValue.split. pose proof (split_not_nil sep s) as Hne.
  destruct (Ascii.eqb_spec c sep) as [->|_].
  - destruct (JsValue.split sep s) as [|h t]; [now elim Hne|].
    change (String.concat (String sep "") ("" :: h :: t))
      with (("" ++ String sep "" ++ String.concat (String sep "") (h :: t))%string).
    now rewrite IH.
  - destruct (JsValue.split sep s) as [|h t]; [now elim Hne|].
    destruct t as [|y t]; simpl in *; now rewrite IH.
Qed.

Lemma split_head_has_no_sep sep s g t :
  JsValue.split sep s = g :: t -> contains_char sep g = false.
Proof.
  revert g t. induction s as [|c s IH]; intros g t; simpl.
  - intros E. injection E as <- _. reflexivity.
  - destruct (Ascii.eqb c sep) eqn:Hc.
    + intros E. injection E as <- _. reflexivity.
    + destruct (JsValue.split sep s) as [|h t'] eqn:Es.
      * intros E. injection E as <- _. simpl. now rewrite Hc.
      * intros E. injection E as <- _. simpl. now rewrite Hc, (IH h t' eq_refl).
Qed.

Lemma split_single_iff sep s :
  contains_char sep s = false <-> JsValue.split sep s = [s].
Proof.
  induction s as [|c s IH]; simpl.
  - tauto.
  - destruct (Ascii.eqb c sep) eqn:Hc; simpl.
    + split; [discriminate|]. intros E. injection E as _ E.
      now elim (split_not_nil sep s).
    + rewrite IH. destruct (JsValue.split sep s) as [|h t] eqn:Es.
      * now elim (split_not_nil sep s).
      * split.
        -- intros E. injection E as -> ->. reflexivity.
        -- intros E. injection E as -> ->. reflexivity.
Qed.

(** [createPatient] cuts the name at its first space: [given] is the one
    word before it (never [undefined], never with a space in it), [family]
    is everything after it, and the two put the name together again; a name
    without space goes to [given] whole and [family] is empty. *)
Theorem createPatient_cuts_the_name_at_the_first_space :
  forall d,
    exists g fam,
      FHIRBuilder.p_name (FHIRBuilder.createPatient d)
      = [FHIRBuilder.HumanName.mk "official" (FHIRBuilder.name d) [Some g] fam] /\
      contains_char " " g = false /\
      (contains_char " " (FHIRBuilder.name d) = false /\
       g = FHIRBuilder.name d /\ fam = EmptyString
       \/
       contains_char " " (FHIRBuilder.name d) = true /\
       FHIRBuilder.name d = (g ++ " " ++ fam)%string).
Proof.
  intros d. unfold FHIRBuilder.createPatient. simpl FHIRBuilder.p_name.
  pose proof (join_split " " (FHIRBuilder.name d)) as Hjoin.
  destruct (JsValue.split " " (FHIRBuilder.name d)) as [|g t] eqn:Es;
    [now elim (split_not_nil " " (FHIRBuilder.name d))|].
  exists g, (String.concat " " t). simpl hd_error. simpl tl.
  split; [reflexivity|]. split; [exact (split_head_has_no_sep _ _ _ _ Es)|].
  destruct (contains_char " " (FHIRBuilder.name d)) eqn:Hsp.
  - right. split; [reflexivity|]. destruct t as [|y t].
    + assert (H : contains_char " " (FHIRBuilder.name d) = false).
      { apply split_single_iff. rewrite Es. simpl in Hjoin. now rewrite Hjoin. }
      rewrite H in Hsp. discriminate.
    + now rewrite <- Hjoin.
  - left. split; [reflexivity|].
    apply split_single_iff in Hsp. rewrite Hsp in Es. injection Es as <- <-.
    now split.
Qed.

End SplitFacts.

(** * Properties of the conversion to FHIR *)

Section ConversionFacts.
Import JsValue Ehr.
Local Open Scope list_scope.
Local Open Scope Z_scope.

(** What neither the reason nor the priority touches. *)
Lemma server_js_fields env e a :
  convertEHRtoFHIR_server_js env e = Some a ->
  a_status a = fhirStatus (status e) /\
  a_participant a = participants e /\
  a_minutesDuration a = or_30 (parseInt_auto (to_string (duration e))).
Proof.
  unfold convertEHRtoFHIR_server_js, base_appointment.
  destruct (date_iso env (startDateTime e)); [|discriminate].
  destruct (date_iso env (endDateTime e)); [|discriminate].
  cbv zeta. intros E. injection E as <-.
  destruct (truthy (diagnosis e)), (truthy (priority e)); repeat split.
Qed.

Lemma refactored_fields env e a :
  convertEHRtoFHIR_refactored env e = Some a ->
  a_status a = fhirStatus (status e) /\
  a_participant a = participants e /\
  a_minutesDuration a = or_30 (Js.parseInt (to_string (duration e))).
Proof.
  unfold convertEHRtoFHIR_refactored, base_appointment.
  destruct (date_iso env (startDateTime e)); [|discriminate].
  destruct (date_iso env (endDateTime e)); [|discriminate].
  cbv zeta. intros E. injection E as <-.
  destruct (truthy (diagnosis e) || truthy (procedureCode e)),
    (truthy (priority e)); repeat split.
Qed.

Lemma own_property_statusMap key v :
  own_property statusMap key = Some v -> In v mapped_statuses.
Proof.
  unfold statusMap, mapped_statuses. cbn [own_property].
  repeat (destruct (String.eqb _ key);
          [intros E; injection E as <-; simpl; tauto|]).
  discriminate.
Qed.

Lemma fhirStatus_mapped st :
  ~ In (to_string st) object_prototype_names ->
  exists s, fhirStatus st = Status s /\ In s mapped_statuses /\
            (own_property statusMap (to_string st) = None -> s = "booked"%string).
Proof.
  intros Hnot. unfold fhirStatus.
  destruct (own_property statusMap (to_string st)) as [v|] eqn:E.
  - exists v. split; [reflexivity|]. split; [|discriminate].
    exact (own_property_statusMap _ _ E).
  - destruct (existsb (String.eqb (to_string st)) object_prototype_names) eqn:Ex.
    + apply existsb_exists in Ex as [x [Hx Heq]].
      apply String.eqb_eq in Heq. subst x. now elim Hnot.
    + exists "booked"%string. split; [reflexivity|]. split; [simpl; tauto | auto].
Qed.

(** The status of a converted appointment is one of booked, arrived,
    fulfilled, cancelled, noshow and pending, and it is booked for every
    status the map does not list, whenever the status of the booking is not
    the name of a member of [Object.prototype]; for such a name it is that
    member, not a string.  Both versions of the conversion. *)
Theorem converted_status_is_a_mapped_status :
  forall env e a,
    convertEHRtoFHIR_server_js env e = Some a \/
    convertEHRtoFHIR_refactored env e = Some a ->
    (~ In (to_string (status e)) object_prototype_names ->
     exists s, a_status a = Status s /\ In s mapped_statuses /\
               (own_property statusMap (to_string (status e)) = None ->
                s = "booked"%string)) /\
    (In (to_string (status e)) object_prototype_names ->
     a_status a = Inherited (to_string (status e))).
Proof.
  intros env e a H.
  assert (Hs : a_status a = fhirStatus (status e)).
  { destruct H as [H|H];
      [now apply server_js_fields in H | now apply refactored_fields in H]. }
  rewrite Hs. split; [apply fhirStatus_mapped|].
  intros Hin. unfold fhirStatus.
  assert (Hex : existsb (String.eqb (to_string (status e))) object_prototype_names
                = true).
  { apply existsb_exists. exists (to_string (status e)).
    split; [exact Hin | apply String.eqb_refl]. }
  rewrite Hex.
  destruct (own_property statusMap (to_string (status e))) as [v|] eqn:E;
    [|reflexivity].
  exfalso. revert E Hin. generalize (to_string (status e)). intros key.
  unfold statusMap, object_prototype_names. cbn [own_property].
  repeat match goal with
         | |- context [String.eqb ?k key] =>
             destruct (String.eqb_spec k key) as [<-|_];
             [intros _ Hin;
              repeat (destruct Hin as [Hin|Hin]; [discriminate Hin|]);
              exact Hin|]
         end.
  intros E. discriminate E.
Qed.

Lemma converted_status_is_a_mapped_status_witness :
  exists a s,
    convertEHRtoFHIR_refactored fixed_environment readme_booking = Some a /\
    a_status a = Status s /\ In s mapped_statuses /\
    (own_property statusMap (to_string (status readme_booking)) = None ->
     s = "booked"%string).
Proof.
  destruct (convertEHRtoFHIR_refactored fixed_environment readme_booking)
    as [a|] eqn:E; [|discriminate E].
  destruct (proj1 (converted_status_is_a_mapped_status
                     fixed_environment readme_booking a (or_intror E)))
    as [s Hs].
  - simpl. intuition discriminate.
  - exists a, s. split; [reflexivity | exact Hs].
Defined.

Lemma parse_unsigned_decimal r :
  hex_prefix r = false -> parse_unsigned r = Js.parse_digits r.
Proof.
  destruct r as [|a [|b r]]; try reflexivity;
    destruct a as [[] [] [] [] [] [] [] []]; try reflexivity;
    destruct b as [[] [] [] [] [] [] [] []]; try reflexivity; discriminate.
Qed.

(** Without a hexadecimal prefix, [parseInt] reads the same number with and
    without the radix 10. *)
Lemma parseInt_auto_decimal s :
  hex_prefixed s = false -> parseInt_auto s = Js.parseInt s.
Proof.
  unfold hex_prefixed, parseInt_auto, Js.parseInt.
  destruct (Js.trimStart s) as [|c r].
  - reflexivity.
  - destruct c as [[] [] [] [] [] [] [] []]; intros H;
      now rewrite ?parse_unsigned_decimal.
Qed.

(** The two versions of the conversion give the same appointment for every
    booking without procedure code whose duration and priority are not
    written in hexadecimal: the refactoring changes the result only through
    the coding of the procedure and the radix of [parseInt]. *)
Theorem refactored_conversion_agrees_without_procedure_code :
  forall env e,
    truthy (procedureCode e) = false ->
    hex_prefixed (to_string (duration e)) = false ->
    hex_prefixed (to_string (priority e)) = false ->
    convertEHRtoFHIR_refactored env e = convertEHRtoFHIR_server_js env e.
Proof.
  intros env e Hp Hd Hpr.
  unfold convertEHRtoFHIR_refactored, convertEHRtoFHIR_server_js.
  rewrite Hp, !(parseInt_auto_decimal _ Hd), !(parseInt_auto_decimal _ Hpr).
  destruct (base_appointment env e _) as [a|]; [|reflexivity].
  rewrite orb_false_r. cbv zeta.
  destruct (truthy (diagnosis e)) eqn:Hdiag; [|reflexivity].
  unfold or_else. now rewrite Hdiag.
Qed.

Lemma refactored_conversion_agrees_without_procedure_code_witness :
  convertEHRtoFHIR_refactored fixed_environment
    (mkEhr (Text "P001") (Text "Maung") (Text "DOC001") (Text "Dr. Aung")
       (Text "Appendicitis") Undefined (Text "45") (Text "2025-12-08T10:07")
       (Text "2025-12-08T10:52") (Text "2") (Text "scheduled") Undefined)
  = convertEHRtoFHIR_server_js fixed_environment
      (mkEhr (Text "P001") (Text "Maung") (Text "DOC001") (Text "Dr. Aung")
         (Text "Appendicitis") Undefined (Text "45") (Text "2025-12-08T10:07")
         (Text "2025-12-08T10:52") (Text "2") (Text "scheduled") Undefined).
Proof.
  apply refactored_conversion_agrees_without_procedure_code; reflexivity.
Defined.

Lemma digits_value_bound s acc :
  0 <= acc -> 0 <= Js.digits_value acc s < (acc + 1) * 10 ^ Z.of_nat (String.length s).
Proof.
  revert acc. induction s as [|c s IH]; intros acc Hacc.
  - simpl. lia.
  - cbn [Js.digits_value String.length]. rewrite Nat2Z.inj_succ, Z.pow_succ_r by lia.
    assert (Hp : 0 < 10 ^ Z.of_nat (String.length s)) by (apply Z.pow_pos_nonneg; lia).
    destruct (Js.is_digit c) eqn:Hd; [|nia].
    unfold Js.is_digit in Hd. apply andb_true_iff in Hd as [H1 H2].
    apply Nat.leb_le in H1, H2.
    specialize (IH (10 * acc + Z.of_nat (nat_of_ascii c - 48))).
    nia.
Qed.

Lemma hex_digit_bound c d : hex_digit c = Some d -> 0 <= d <= 15.
Proof.
  unfold hex_digit, Js.is_digit.
  destruct ((48 <=? nat_of_ascii c)%nat && (nat_of_ascii c <=? 57)%nat) eqn:E1.
  { apply andb_true_iff in E1 as [H1 H2]. apply Nat.leb_le in H1, H2.
    intros E. injection E as <-. lia. }
  destruct ((97 <=? nat_of_ascii c)%nat && (nat_of_ascii c <=? 102)%nat) eqn:E2.
  { apply andb_true_iff in E2 as [H1 H2]. apply Nat.leb_le in H1, H2.
    intros E. injection E as <-. lia. }
  destruct ((65 <=? nat_of_ascii c)%nat && (nat_of_ascii c <=? 70)%nat) eqn:E3;
    [|discriminate].
  apply andb_true_iff in E3 as [H1 H2]. apply Nat.leb_le in H1, H2.
  intros E. injection E as <-. lia.
Qed.

Lemma hex_value_bound s acc :
  0 <= acc -> 0 <= hex_value acc s < (acc + 1) * 16 ^ Z.of_nat (String.length s).
Proof.
  revert acc. induction s as [|c s IH]; intros acc Hacc.
  - simpl. lia.
  - cbn [hex_value String.length]. rewrite Nat2Z.inj_succ, Z.pow_succ_r by lia.
    assert (Hp : 0 < 16 ^ Z.of_nat (String.length s)) by (apply Z.pow_pos_nonneg; lia).
    destruct (hex_digit c) as [d|] eqn:Hd; [|nia].
    apply hex_digit_bound in Hd. specialize (IH (16 * acc + d)). nia.
Qed.

Lemma parse_digits_exact r z :
  (String.length r <= 15)%nat -> Js.parse_digits r = Js.Num z -> 0 <= z < 2 ^ 53.
Proof.
  intros Hlen. unfold Js.parse_digits.
  destruct (Js.starts_with_digit r); [|discriminate].
  intros E. injection E as <-.
  pose proof (digits_value_bound r 0 (Z.le_refl 0)) as [H1 H2].
  assert (Hpow : 10 ^ Z.of_nat (String.length r) <= 10 ^ 15)
    by (apply Z.pow_le_mono_r; lia).
  assert (H15 : 10 ^ 15 < 2 ^ 53) by reflexivity.
  lia.
Qed.

Lemma parse_hex_exact r z :
  (String.length r <= 13)%nat -> parse_hex r = Js.Num z -> 0 <= z < 2 ^ 53.
Proof.
  intros Hlen.
  pose proof (hex_value_bound r 0 (Z.le_refl 0)) as [H1 H2].
  assert (Hpow : 16 ^ Z.of_nat (String.length r) <= 16 ^ 13)
    by (apply Z.pow_le_mono_r; lia).
  assert (H13 : 16 ^ 13 < 2 ^ 53) by reflexivity.
  unfold parse_hex. destruct r as [|c r']; [discriminate|].
  destruct (hex_digit c); [|discriminate].
  intros E.
  assert (Hz : hex_value 0 (String c r') = z) by congruence.
  rewrite <- Hz. lia.
Qed.

Lemma parse_unsigned_hex r :
  hex_prefix r = true ->
  exists a b r', r = String a (String b r') /\ parse_unsigned r = parse_hex r'.
Proof.
  destruct r as [|a [|b r]]; try discriminate;
    destruct a as [[] [] [] [] [] [] [] []]; try discriminate;
    destruct b as [[] [] [] [] [] [] [] []]; try discriminate;
    intros _; eexists _, _, _; split; reflexivity.
Qed.

Lemma parse_unsigned_exact r z :
  (String.length r <= 15)%nat -> parse_unsigned r = Js.Num z -> 0 <= z < 2 ^ 53.
Proof.
  intros Hlen. destruct (hex_prefix r) eqn:Hh.
  - destruct (parse_unsigned_hex r Hh) as [a [b [r' [-> ->]]]].
    apply parse_hex_exact. simpl in Hlen. lia.
  - rewrite (parse_unsigned_decimal r Hh). now apply parse_digits_exact.
Qed.

Lemma length_trimStart s : (String.length (Js.trimStart s) <= String.length s)%nat.
Proof.
  induction s as [|c s IH]; simpl; [lia|].
  destruct (Js.is_space c); simpl; lia.
Qed.

Lemma negate_exact x z :
  (forall y, x = Js.Num y -> 0 <= y < 2 ^ 53) ->
  Js.negate x = Js.Num z -> - 2 ^ 53 < z < 2 ^ 53.
Proof.
  intros H. destruct x as [|y]; [discriminate|]. simpl.
  intros E. injection E as <-. specialize (H y eq_refl). lia.
Qed.

(** A number written with at most 15 characters is read below 2^53, where
    a double holds every integer: there the reading in [Z] is the reading
    of [parseInt]. *)
Lemma parseInt_auto_exact s z :
  (String.length s <= 15)%nat -> parseInt_auto s = Js.Num z ->
  - 2 ^ 53 < z < 2 ^ 53.
Proof.
  intros Hlen. pose proof (length_trimStart s) as Ht. unfold parseInt_auto.
  assert (Hu : forall r y, (String.length r <= 15)%nat ->
                           parse_unsigned r = Js.Num y -> - 2 ^ 53 < y < 2 ^ 53).
  { intros r y Hr E. pose proof (parse_unsigned_exact r y Hr E). lia. }
  destruct (Js.trimStart s) as [|c r]; [apply Hu; simpl; lia|].
  simpl in Ht.
  destruct (Ascii.eqb_spec c "-") as [->|Hm].
  - apply negate_exact. intros y. apply parse_unsigned_exact. lia.
  - destruct (Ascii.eqb_spec c "+") as [->|Hp].
    + apply Hu. lia.
    + intros E. apply (Hu (String c r)); [simpl; lia|]. rewrite <- E.
      destruct c as [[] [] [] [] [] [] [] []]; try reflexivity;
        [now elim Hp | now elim Hm].
Qed.

Lemma parseInt_exact s z :
  (String.length s <= 15)%nat -> Js.parseInt s = Js.Num z ->
  - 2 ^ 53 < z < 2 ^ 53.
Proof.
  intros Hlen. pose proof (length_trimStart s) as Ht. unfold Js.parseInt.
  assert (Hu : forall r y, (String.length r <= 15)%nat ->
                           Js.parse_digits r = Js.Num y -> - 2 ^ 53 < y < 2 ^ 53).
  { intros r y Hr E. pose proof (parse_digits_exact r y Hr E). lia. }
  destruct (Js.trimStart s) as [|c r]; [apply Hu; simpl; lia|].
  simpl in Ht.
  destruct (Ascii.eqb_spec c "-") as [->|Hm].
  - apply negate_exact. intros y. apply parse_digits_exact. lia.
  - destruct (Ascii.eqb_spec c "+") as [->|Hp].
    + apply Hu. lia.
    + intros E. apply (Hu (String c r)); [simpl; lia|]. rewrite <- E.
      destruct c as [[] [] [] [] [] [] [] []]; try reflexivity;
        [now elim Hp | now elim Hm].
Qed.

(** For a booking whose duration is written with at most 15 characters,
    the duration of a converted appointment is an integer other than 0 and
    below 2^53 in magnitude (so a double holds it exactly): what [parseInt]
    reads in the booking's duration when that is a non-zero integer, and 30
    in every other case (no duration, not a number, or 0).  [server.js]
    reads the duration without radix, the refactored server in base 10. *)
Theorem converted_duration_is_never_zero :
  forall env e a,
    (String.length (to_string (duration e)) <= 15)%nat ->
    (convertEHRtoFHIR_server_js env e = Some a ->
     exists z, a_minutesDuration a = Js.Num z /\ z <> 0 /\
               - 2 ^ 53 < z < 2 ^ 53 /\
               (forall n, parseInt_auto (to_string (duration e)) = Js.Num n ->
                          n <> 0 -> z = n) /\
               (parseInt_auto (to_string (duration e)) = Js.NaN \/
                parseInt_auto (to_string (duration e)) = Js.Num 0 -> z = 30)) /\
    (convertEHRtoFHIR_refactored env e = Some a ->
     exists z, a_minutesDuration a = Js.Num z /\ z <> 0 /\
               - 2 ^ 53 < z < 2 ^ 53 /\
               (forall n, Js.parseInt (to_string (duration e)) = Js.Num n ->
                          n <> 0 -> z = n) /\
               (Js.parseInt (to_string (duration e)) = Js.NaN \/
                Js.parseInt (to_string (duration e)) = Js.Num 0 -> z = 30)).
Proof.
  assert (H53 : 30 < 2 ^ 53) by reflexivity.
  assert (Hor : forall x, (forall y, x = Js.Num y -> - 2 ^ 53 < y < 2 ^ 53) ->
             exists z,
               or_30 x = Js.Num z /\ z <> 0 /\ - 2 ^ 53 < z < 2 ^ 53 /\
               (forall n, x = Js.Num n -> n <> 0 -> z = n) /\
               (x = Js.NaN \/ x = Js.Num 0 -> z = 30)).
  { intros [|n] Hx; simpl.
    - exists 30. repeat split; try lia; discriminate.
    - destruct (Z.eqb_spec n 0) as [->|Hn].
      + exists 30. repeat split; try lia.
        intros m E Hm. injection E as <-. now elim Hm.
      + exists n. pose proof (Hx n eq_refl).
        repeat split; try assumption; try lia.
        * intros m E _. now injection E.
        * intros [E|E]; [discriminate E | injection E as ->; now elim Hn]. }
  intros env e a Hlen. split; intros H.
  - apply server_js_fields in H as [_ [_ ->]]. apply Hor.
    intros y. now apply parseInt_auto_exact.
  - apply refactored_fields in H as [_ [_ ->]]. apply Hor.
    intros y. now apply parseInt_exact.
Qed.

Lemma converted_duration_is_never_zero_witness :
  exists a z,
    convertEHRtoFHIR_refactored fixed_environment readme_booking = Some a /\
    a_minutesDuration a = Js.Num z /\ z <> 0 /\ z = 45.
Proof.
  destruct (convertEHRtoFHIR_refactored fixed_environment readme_booking)
    as [a|] eqn:E; [|discriminate E].
  assert (Hlen : (String.length (to_string (duration readme_booking)) <= 15)%nat)
    by (simpl; lia).
  destruct (proj2 (converted_duration_is_never_zero
                     fixed_environment readme_booking a Hlen) E)
    as [z [Hz [Hne [_ [Hread _]]]]].
  exists a, z. split; [reflexivity|]. split; [exact Hz|]. split; [exact Hne|].
  apply (Hread 45); [reflexivity | lia].
Defined.

End ConversionFacts.

(** * Properties of the name extraction *)

Section ExtractionFacts.
Import JsValue FhirAppointment.
Local Open Scope list_scope.

Lemma patient_is_not_practitioner r :
  Js.startsWith r "Patient/" = true -> Js.startsWith r "Practitioner/" = false.
Proof.
  destruct r as [|a [|b r]]; cbn [Js.startsWith].
  - discriminate.
  - rewrite andb_false_r. discriminate.
  - destruct (Ascii.eqb_spec "P" a) as [<-|_]; [|discriminate].
    destruct (Ascii.eqb_spec "a" b) as [<-|_]; [|discriminate].
    reflexivity.
Qed.

(** One participant that does not throw: each name is replaced when the
    participant refers to it, and kept otherwise. *)
Lemma visit_ok names p :
  throws p = false ->
  visit names p
  = Some (match p with
          | Actor _ display =>
              (if refers_to "Patient/" p then display else fst names,
               if refers_to "Practitioner/" p then display else snd names)
          | _ => names
          end).
Proof.
  destruct names as [pn dn]. destruct p as [| |reference display].
  - discriminate.
  - reflexivity.
  - cbn [throws visit refers_to fst snd].
    destruct (truthy display) eqn:Hd.
    + destruct reference as [|r|b c].
      * reflexivity.
      * intros _. cbn [andb]. destruct (truthy (Text r)) eqn:Hr.
        -- destruct (Js.startsWith r "Patient/") eqn:Hp.
           ++ now rewrite (patient_is_not_practitioner _ Hp).
           ++ now destruct (Js.startsWith r "Practitioner/").
        -- destruct r; [reflexivity | discriminate Hr].
      * destruct b; [discriminate | reflexivity].
    + intros _. destruct reference; reflexivity.
Qed.

Lemma visit_throws names p : throws p = true -> visit names p = None.
Proof.
  destruct p as [| |reference display]; simpl; try discriminate; [reflexivity|].
  intros H. apply andb_true_iff in H as [Hd Hr]. rewrite Hd.
  destruct reference as [|r|[] c]; try discriminate. reflexivity.
Qed.

Lemma find_snoc {A} (f : A -> bool) l x :
  find f (l ++ [x])
  = match find f l with
    | Some y => Some y
    | None => if f x then Some x else None
    end.
Proof.
  induction l as [|y l IH]; simpl; [reflexivity|].
  now destruct (f y).
Qed.

Lemma forEach_snoc l p names :
  forEach (l ++ [p]) names
  = match forEach l names with
    | Some names' => visit names' p
    | None => None
    end.
Proof.
  revert names. induction l as [|x l IH]; intros names; simpl.
  - now destruct (visit names p).
  - destruct (visit names x); [apply IH | reflexivity].
Qed.

Lemma last_display_snoc prefix l p :
  last_display prefix (l ++ [p])
  = if refers_to prefix p
    then match p with Actor _ display => display | _ => Text "" end
    else last_display prefix l.
Proof.
  unfold last_display. rewrite rev_app_distr. simpl.
  destruct (refers_to prefix p) eqn:Hp; [|reflexivity].
  destruct p as [| |reference display]; try discriminate. reflexivity.
Qed.

Lemma forEach_names l :
  (existsb throws l = true -> forEach l (Text "", Text "") = None) /\
  (existsb throws l = false ->
   forEach l (Text "", Text "")
   = Some (last_display "Patient/" l, last_display "Practitioner/" l)).
Proof.
  induction l as [|p l [IH1 IH2]] using rev_ind.
  - split; [discriminate | reflexivity].
  - rewrite existsb_app, forEach_snoc. simpl existsb. rewrite orb_false_r.
    destruct (existsb throws l) eqn:El; simpl.
    + split; [intros _; now rewrite IH1 | discriminate].
    + rewrite (IH2 eq_refl). split; intros Hp.
      * now apply visit_throws.
      * rewrite (visit_ok _ _ Hp), !last_display_snoc. simpl.
        destruct p as [| |reference display]; simpl; reflexivity.
Qed.

(** The names [POST /fhir/Appointment] stores.  The extraction throws (and
    the handler ends in its [catch]) exactly when [participant] is truthy
    without being an array, or holds a [null], or holds a truthy display
    beside a truthy reference that is not a string.  Otherwise the patient's
    name is the display of the
    last participant whose reference starts with "Patient/", the doctor's
    that of the last whose reference starts with "Practitioner/", and the
    empty string when there is none. *)
Theorem participant_names_are_the_last_displays :
  forall l,
    participant_names NotAnArray = None /\
    participant_names Missing = Some (Text "", Text "") /\
    (existsb throws l = true -> participant_names (Array l) = None) /\
    (existsb throws l = false ->
     participant_names (Array l)
     = Some (last_display "Patient/" l, last_display "Practitioner/" l)).
Proof.
  intros l. split; [reflexivity|]. split; [reflexivity|].
  exact (forEach_names l).
Qed.

Lemma participant_names_are_the_last_displays_witness :
  participant_names
    (Array [Actor (Text "Patient/P001") (Text "Ma Hla");
            Actor (Text "Practitioner/DOC001") (Text "Dr. Aung");
            Actor (Text "Patient/P002") (Text "Ko Min")])
  = Some (Text "Ko Min", Text "Dr. Aung") /\
  participant_names
    (Array [Actor (Text "Patient/P001") (Text "Ma Hla"); Nullish]) = None.
Proof.
  split.
  - apply (proj2 (proj2 (proj2 (participant_names_are_the_last_displays
             [Actor (Text "Patient/P001") (Text "Ma Hla");
              Actor (Text "Practitioner/DOC001") (Text "Dr. Aung");
              Actor (Text "Patient/P002") (Text "Ko Min")])))).
    reflexivity.
  - apply (proj1 (proj2 (proj2 (participant_names_are_the_last_displays
             [Actor (Text "Patient/P001") (Text "Ma Hla"); Nullish])))).
    reflexivity.
Defined.

(** The extraction reads back what the conversion wrote: on the participants
    of a converted appointment it never throws and gives the patient's and
    the doctor's name of the booking, each replaced by the empty string when
    it is missing or falsy.  Both versions of the conversion. *)
Theorem extraction_reads_back_the_converted_names :
  forall env e a,
    Ehr.convertEHRtoFHIR_server_js env e = Some a \/
    Ehr.convertEHRtoFHIR_refactored env e = Some a ->
    participant_names (Array (map received (Ehr.a_participant a)))
    = Some (or_else (Ehr.patientName e) (Text ""),
            or_else (Ehr.doctorName e) (Text "")).
Proof.
  intros env e a H.
  assert (Hp : Ehr.a_participant a = Ehr.participants e).
  { destruct H as [H|H];
      [now apply server_js_fields in H | now apply refactored_fields in H]. }
  rewrite Hp. unfold Ehr.participants, or_else. simpl.
  destruct (truthy (Ehr.patientName e)), (truthy (Ehr.doctorName e)); reflexivity.
Qed.

Lemma extraction_reads_back_the_converted_names_witness :
  exists a,
    Ehr.convertEHRtoFHIR_refactored fixed_environment readme_booking = Some a /\
    participant_names (Array (map received (Ehr.a_participant a)))
    = Some (Text "Maung Thurein Lin", Text "Dr. Aung Ko Win").
Proof.
  destruct (Ehr.convertEHRtoFHIR_refactored fixed_environment readme_booking)
    as [a|] eqn:E; [|discriminate E].
  exists a. split; [reflexivity|].
  exact (extraction_reads_back_the_converted_names
           fixed_environment readme_booking a (or_intror E)).
Defined.

End ExtractionFacts.
